(** * Entity table construction and scoring of the NER pipeline

    A shallow embedding of [etl-service/ner_wayang.py] (span repair, cleaning,
    filtering, aggregation into the entity table) and of
    [etl-service/evaluate_ner.py] (the scoring harness), followed by the
    properties of both.

    Conventions of the embedding.
    - A Python [str] is a [string]; a character is one of the code points
      U+0000..U+00FF (an [ascii]), and the character classes below are the
      ones Python assigns to these code points.
    - A Python [int] is a [Z]; indexing and slicing follow Python for
      negative and out-of-range positions.
    - A Python [float] score or percentage is an exact rational [Q].
    - A raised exception is the [Raise] outcome of [result].
    - [dict]s that are only looked up or sorted afterwards are [gmap]s, sets
      are [gset]s; the one [dict] that is iterated ([gold_truth]) is an
      insertion-ordered association list. *)

From Stdlib Require Import ZArith QArith String Ascii List Lia Lqa Permutation.
From stdpp Require Import gmap strings list fin_maps sorting.

Local Open Scope string_scope.
Local Open Scope Z_scope.

(** ** Python outcomes *)

Inductive exn : Set :=
| IndexError
| ZeroDivisionError
| ExternalError
| OutOfFuel.

Inductive result (A : Type) : Type :=
| Ok (a : A)
| Raise (e : exn).

Arguments Ok {A} a.
Arguments Raise {A} e.

Definition bind {A B : Type} (r : result A) (k : A -> result B) : result B :=
  match r with
  | Ok a => k a
  | Raise e => Raise e
  end.

Notation "'let*' x := r 'in' k" := (bind r (fun x => k))
  (at level 10, x name, r at level 100, k at level 200).

(** ** Python string primitives *)

Module Py.

Definition len (s : string) : Z := Z.of_nat (String.length s).

Definition code (c : ascii) : N := N_of_ascii c.

Definition between (lo hi : N) (c : ascii) : bool :=
  ((lo <=? code c) && (code c <=? hi))%N.

(** [str.isalpha] on U+0000..U+00FF: the letters of general category L. *)
Definition isalpha (c : ascii) : bool :=
  between 65 90 c || between 97 122 c
  || between 170 170 c || between 181 181 c || between 186 186 c
  || between 192 214 c || between 216 246 c || between 248 255 c.

(** [str.isdecimal], [str.isdigit], [str.isnumeric] on U+0000..U+00FF. *)
Definition isdecimal (c : ascii) : bool := between 48 57 c.

Definition isdigit (c : ascii) : bool :=
  isdecimal c || between 178 179 c || between 185 185 c.

Definition isnumeric (c : ascii) : bool :=
  isdigit c || between 188 190 c.

Definition isalnum (c : ascii) : bool :=
  isalpha c || isdecimal c || isdigit c || isnumeric c.

(** [str.isspace] on U+0000..U+00FF. *)
Definition isspace (c : ascii) : bool :=
  between 9 13 c || between 28 32 c || between 133 133 c
  || between 160 160 c.

(** [str.lower] on one character of U+0000..U+00FF. *)
Definition lower_char (c : ascii) : ascii :=
  if between 65 90 c || between 192 214 c || between 216 222 c
  then ascii_of_N (code c + 32)
  else c.

Fixpoint lower (s : string) : string :=
  match s with
  | EmptyString => EmptyString
  | String c s' => String (lower_char c) (lower s')
  end.

(** [s[i]]: negative positions count from the end, anything outside the
    string raises. *)
Definition index (s : string) (i : Z) : result ascii :=
  let j := if i <? 0 then i + len s else i in
  if (j <? 0) || (len s <=? j) then Raise IndexError
  else match String.get (Z.to_nat j) s with
       | Some c => Ok c
       | None => Raise IndexError
       end.

(** A slice bound is clamped into [0, len s]. *)
Definition slice_bound (n i : Z) : Z :=
  if i <? 0 then Z.max (i + n) 0 else Z.min i n.

(** [s[start:stop]]. *)
Definition slice (s : string) (start stop : Z) : string :=
  let lo := slice_bound (len s) start in
  let hi := slice_bound (len s) stop in
  substring (Z.to_nat lo) (Z.to_nat (hi - lo)) s.

Definition mem_char (chars : list ascii) (c : ascii) : bool :=
  existsb (Ascii.eqb c) chars.

Fixpoint lstrip (p : ascii -> bool) (s : string) : string :=
  match s with
  | EmptyString => EmptyString
  | String c s' => if p c then lstrip p s' else s
  end.

Fixpoint rstrip (p : ascii -> bool) (s : string) : string :=
  match s with
  | EmptyString => EmptyString
  | String c s' =>
      match rstrip p s' with
      | EmptyString => if p c then EmptyString else String c EmptyString
      | r => String c r
      end
  end.

(** [s.strip(chars)] and [s.strip()]. *)
Definition strip_chars (chars : list ascii) (s : string) : string :=
  rstrip (mem_char chars) (lstrip (mem_char chars) s).

Definition strip (s : string) : string :=
  rstrip isspace (lstrip isspace s).

End Py.

(** ** ner_wayang.py *)

Definition CONFIDENCE_THRESHOLD : Q := 0.60.

Definition BLOCKLIST : gset string :=
  list_to_set
    [ "Sang"; "Para"; "Yang"; "Dan"; "Di"; "Ke"; "Dari"; "Saat"; "Ketika";
      "Maka"; "Lalu"; "Akan"; "Telah"; "Sudah"; "Ia"; "Dia"; "Mereka";
      "Hal" ].

(** [word.replace("##", "")]: every non-overlapping occurrence, left to
    right. *)
Fixpoint replace_marker (word : string) : string :=
  match word with
  | EmptyString => EmptyString
  | String "#" (String "#" rest) => replace_marker rest
  | String c rest => String c (replace_marker rest)
  end.

(** [re.sub(' +', ' ', word)]: [sub_spaces] scans outside a run of spaces,
    [skip_spaces] inside one (its single replacement space already
    emitted). *)
Fixpoint sub_spaces (word : string) : string :=
  match word with
  | EmptyString => EmptyString
  | String c rest =>
      if Ascii.eqb c " " then String " " (skip_spaces rest)
      else String c (sub_spaces rest)
  end
with skip_spaces (word : string) : string :=
  match word with
  | EmptyString => EmptyString
  | String c rest =>
      if Ascii.eqb c " " then skip_spaces rest
      else String c (sub_spaces rest)
  end.

(** The characters stripped by [clean_entity_name]: space, full stop, comma,
    colon, semicolon, exclamation mark, question mark, double quote (code
    34), apostrophe and both parentheses. *)
Definition STRIP_CHARS : list ascii :=
  [ " "; "."; ","; ":"; ";"; "!"; "?"; "034"; "'"; "("; ")" ]%char.

Definition clean_entity_name (word : string) : string :=
  let word := replace_marker word in
  let word := Py.strip_chars STRIP_CHARS word in
  let word := sub_spaces word in
  word.

(** The [while] loop of [expand_to_full_word]; [fuel] bounds the number of
    iterations. *)
Fixpoint expand_loop (fuel : nat) (text : string) (current_end : Z)
  : result Z :=
  if current_end <? Py.len text then
    let* c := Py.index text current_end in
    if Py.isalnum c then
      match fuel with
      | O => Raise OutOfFuel
      | S fuel' => expand_loop fuel' text (current_end + 1)
      end
    else Ok current_end
  else Ok current_end.

Definition expand_to_full_word (text : string) (start end_ : Z)
  : result string :=
  if Py.len text <=? end_ then Ok (Py.slice text start end_)
  else
    let* current_end :=
      expand_loop (Z.to_nat (Py.len text - end_)) text end_ in
    Ok (Py.slice text start current_end).

(** *** The entity loop of [run_ner_process] *)

(** One span reported by the labeling model ([entity] in the source). *)
Module Entity.
Record t : Type := mk
  { entity_group : string;
    score : Q;
    start : Z;
    end_ : Z }.
End Entity.

(** The value stored in [unique_entities] under a cleaned name. *)
Module Data.
Record t : Type := mk
  { label : string;
    score : Q;
    stories : gset string }.
End Data.

(** One record of [final_output]. *)
Module Rec.
Record t : Type := mk
  { name : string;
    label : string;
    confidence : Q;
    stories : list string }.
End Rec.

Definition Qltb (x y : Q) : bool :=
  Qnum x * Z.pos (Qden y) <? Qnum y * Z.pos (Qden x).

Definition label_of_group (group : string) : string :=
  if String.eqb group "PER" then "Person"
  else if String.eqb group "ORG" then "Organization"
  else if String.eqb group "LOC" then "Location"
  else "Unknown".

(** Lines 128-138: the update of [unique_entities] by an accepted span. *)
Definition aggregate (unique_entities : gmap string Data.t)
    (clean_word label : string) (score : Q) (story_title : string)
  : gmap string Data.t :=
  match unique_entities !! clean_word with
  | None =>
      <[clean_word := Data.mk label score {[story_title]}]> unique_entities
  | Some data =>
      let stories := {[story_title]} ∪ Data.stories data in
      let best :=
        if Qltb (Data.score data) score then score else Data.score data in
      <[clean_word := Data.mk (Data.label data) best stories]> unique_entities
  end.

(** An accepted span as it reaches lines 128-138. *)
Module Sighting.
Record t : Type := mk
  { clean_word : string;
    label : string;
    score : Q;
    story_title : string }.
End Sighting.

Definition aggregate_sighting (unique_entities : gmap string Data.t)
    (s : Sighting.t) : gmap string Data.t :=
  aggregate unique_entities (Sighting.clean_word s) (Sighting.label s)
    (Sighting.score s) (Sighting.story_title s).

(** The table after a sequence of accepted spans, in order. *)
Definition aggregate_all (unique_entities : gmap string Data.t)
    (sightings : list Sighting.t) : gmap string Data.t :=
  foldl aggregate_sighting unique_entities sightings.

(** Lines 101-138: the body of [for entity in results]. *)
Definition process_entity (text story_title : string)
    (unique_entities : gmap string Data.t) (entity : Entity.t)
  : result (gmap string Data.t) :=
  let group := Entity.entity_group entity in
  let score := Entity.score entity in
  let start := Entity.start entity in
  let end_ := Entity.end_ entity in
  if Qltb score CONFIDENCE_THRESHOLD then Ok unique_entities
  else
    let* full_word_raw := expand_to_full_word text start end_ in
    let clean_word := clean_entity_name full_word_raw in
    if Py.len clean_word <? 3 then Ok unique_entities
    else if bool_decide (clean_word ∈ BLOCKLIST) then Ok unique_entities
    else
      let label := label_of_group group in
      if negb (String.eqb label "Unknown")
      then Ok (aggregate unique_entities clean_word label score story_title)
      else Ok unique_entities.

(** The [for entity in results] loop inside [try]: an exception leaves the
    loop, and the updates made so far stay in [unique_entities]. *)
Fixpoint process_entities (text story_title : string)
    (unique_entities : gmap string Data.t) (results : list Entity.t)
  : gmap string Data.t :=
  match results with
  | [] => unique_entities
  | entity :: rest =>
      match process_entity text story_title unique_entities entity with
      | Ok unique_entities' =>
          process_entities text story_title unique_entities' rest
      | Raise _ => unique_entities
      end
  end.

(** A row after [preprocess_text] and [str(row['Judul']).strip()]. *)
Module Row.
Record t : Type := mk
  { text : string;
    story_title : string }.
End Row.

Section Driver.

(** The external labeling model; a call may raise. *)
Variable ner_pipeline : string -> result (list Entity.t).

(** The body of [for index, row in df.iterrows()]. *)
Definition process_row (unique_entities : gmap string Data.t) (row : Row.t)
  : gmap string Data.t :=
  let text := Row.text row in
  if Py.len text <? 5 then unique_entities
  else
    match ner_pipeline text with
    | Ok results =>
        process_entities text (Row.story_title row) unique_entities results
    | Raise _ => unique_entities
    end.

Definition process_rows (rows : list Row.t) : gmap string Data.t :=
  foldl process_row ∅ rows.

End Driver.

Definition str_le (a b : string) : Prop := Is_true (String.leb a b).

Definition name_le (a b : Rec.t) : Prop := str_le (Rec.name a) (Rec.name b).

Global Instance str_le_dec : RelDecision str_le :=
  fun a b => decide (Is_true (String.leb a b)).

Global Instance name_le_dec : RelDecision name_le :=
  fun a b => decide (str_le (Rec.name a) (Rec.name b)).

(** [sorted(list(stories))]. *)
Definition sorted_stories (stories : gset string) : list string :=
  merge_sort str_le (elements stories).

Definition to_record (item : string * Data.t) : Rec.t :=
  Rec.mk item.1 (Data.label item.2) (Data.score item.2)
    (sorted_stories (Data.stories item.2)).

(** The list comprehension over [unique_entities.items()] followed by
    [final_output.sort(key=lambda x: x['name'])]. *)
Definition final_output (unique_entities : gmap string Data.t)
  : list Rec.t :=
  merge_sort name_le (to_record <$> map_to_list unique_entities).

Definition run_ner_process
    (ner_pipeline : string -> result (list Entity.t)) (rows : list Row.t)
  : list Rec.t :=
  final_output (process_rows ner_pipeline rows).

(** ** evaluate_ner.py *)

Module Gold.
Record t : Type := mk
  { name : string;
    label : string }.
End Gold.

Definition GOLD_STANDARD : list Gold.t :=
  [ Gold.mk "Prabu Basukesti" "Person";
    Gold.mk "Patih Jayaloka" "Person";
    Gold.mk "Resi Suganda" "Person";
    Gold.mk "Empu Dewayasa" "Person";
    Gold.mk "Empu Purbageni" "Person";
    Gold.mk "Empu Prawa" "Person";
    Gold.mk "Empu Kanomayasa" "Person";
    Gold.mk "Dewi Kaniraras" "Person";
    Gold.mk "Dewi Marapi" "Person";
    Gold.mk "Resi Kuswala" "Person";
    Gold.mk "Bambang Daneswara" "Person";
    Gold.mk "Prabu Cingkaradewa" "Person";
    Gold.mk "Sri Maharaja Purwacandra" "Person";
    Gold.mk "Ditya Citradana" "Person";
    Gold.mk "Putut Margana" "Person";
    Gold.mk "Indramarkata" "Person";
    Gold.mk "Kalayaksa" "Person";
    Gold.mk "Gajah Barigu" "Person";
    Gold.mk "Garuda Urna" "Person";
    Gold.mk "Naga Wiswana" "Person";
    Gold.mk "Resi Manumanasa" "Person";
    Gold.mk "Bambang Satrukem" "Person";
    Gold.mk "Dewi Nilawati" "Person";
    Gold.mk "Janggan Smara" "Person";
    Gold.mk "Prabu Durapati" "Person";
    Gold.mk "Prabu Basupati" "Person";
    Gold.mk "Prabu Hastimurti" "Person";
    Gold.mk "Resi Basunanda" "Person";
    Gold.mk "Patih Basundara" "Person";
    Gold.mk "Raden Wasanta" "Person";
    Gold.mk "Arya Basusara" "Person";
    Gold.mk "Prabu Daneswara" "Person";
    Gold.mk "Dewi Awanti" "Person";
    Gold.mk "Brahmana Wisaka" "Person";
    Gold.mk "Prabu Sriwahana" "Person";
    Gold.mk "Utarakanda" "Location";
    Gold.mk "Purwakanda" "Location";
    Gold.mk "Daksinakanda" "Location";
    Gold.mk "Pracimakanda" "Location";
    Gold.mk "Padepokan Saptaarga" "Location";
    Gold.mk "Gunung Saptaarga" "Location";
    Gold.mk "Tanah Hindustan" "Location";
    Gold.mk "Tanah Jawa" "Location";
    Gold.mk "Hutan Minangsraya" "Location";
    Gold.mk "Medang Kamulan" "Location";
    Gold.mk "Kerajaan Wirata" "Organization";
    Gold.mk "Kerajaan Duhyapura" "Organization";
    Gold.mk "Kerajaan Gajahoya" "Organization";
    Gold.mk "Kerajaan Medang Kamulan" "Organization";
    Gold.mk "Gilingwesi" "Organization" ].

(** [d[k] = v] on an insertion-ordered [dict]: a present key keeps its
    position and takes the new value, a new key goes last. *)
Fixpoint dict_set {V : Type} (k : string) (v : V) (d : list (string * V))
  : list (string * V) :=
  match d with
  | [] => [(k, v)]
  | (k', v') :: d' =>
      if String.eqb k' k then (k', v) :: d' else (k', v') :: dict_set k v d'
  end.

(** [{item['name'].lower(): item for item in json_results}], only ever
    looked up. *)
Definition model_predictions_of (json_results : list Rec.t)
  : gmap string Rec.t :=
  foldl (fun d item => <[Py.lower (Rec.name item) := item]> d) ∅ json_results.

(** [{item['name'].lower(): item for item in GOLD_STANDARD}], iterated in
    insertion order. *)
Definition gold_truth_of (gold : list Gold.t) : list (string * Gold.t) :=
  foldl (fun d item => dict_set (Py.lower (Gold.name item)) item d) [] gold.

(** A printed [[MISMATCH]] line. *)
Module Mismatch.
Record t : Type := mk
  { name : string;
    gold_label : string;
    model_label : string }.
End Mismatch.

(** The counters of the coverage loop together with the lines it prints. *)
Module Counts.
Record t : Type := mk
  { tp : Z;
    fn : Z;
    strict_tp : Z;
    strict_fp_label_error : Z;
    printed : list Mismatch.t }.
End Counts.

(** The body of [for name_lower, gold_item in gold_truth.items()]. *)
Definition count_item (model_predictions : gmap string Rec.t)
    (c : Counts.t) (entry : string * Gold.t) : Counts.t :=
  let '(name_lower, gold_item) := entry in
  match model_predictions !! name_lower with
  | Some prediction =>
      if String.eqb (Py.lower (Rec.label prediction))
                    (Py.lower (Gold.label gold_item))
      then Counts.mk (Counts.tp c + 1) (Counts.fn c) (Counts.strict_tp c + 1)
             (Counts.strict_fp_label_error c) (Counts.printed c)
      else Counts.mk (Counts.tp c) (Counts.fn c + 1) (Counts.strict_tp c)
             (Counts.strict_fp_label_error c + 1)
             (Counts.printed c ++
                [Mismatch.mk (Gold.name gold_item) (Gold.label gold_item)
                   (Rec.label prediction)])
  | None =>
      Counts.mk (Counts.tp c) (Counts.fn c + 1) (Counts.strict_tp c)
        (Counts.strict_fp_label_error c) (Counts.printed c)
  end.

(** Python's [/] on numbers. *)
Definition truediv (a b : Q) : result Q :=
  if Qeq_bool b 0 then Raise ZeroDivisionError else Ok (a / b)%Q.

(** The condition of the comprehension of step 5. *)
Definition is_label_error (model_predictions : gmap string Rec.t)
    (kv : string * Gold.t) : bool :=
  match model_predictions !! kv.1 with
  | Some prediction =>
      negb (String.eqb (Py.lower (Rec.label prediction))
                       (Py.lower (Gold.label kv.2)))
  | None => false
  end.

(** The keys of [label_mismatch_list] (step 5). *)
Definition label_mismatch_list_of (model_predictions : gmap string Rec.t)
    (gold_truth : list (string * Gold.t)) : list string :=
  fst <$> List.filter (is_label_error model_predictions) gold_truth.

Module Report.
Record t : Type := mk
  { gold_standard_size : Z;
    tp : Z;
    total_found_in_gold_set : Z;
    strict_tp : Z;
    strict_fp_label_error : Z;
    fn : Z;
    recall : Q;
    strict_precision : Q;
    f1 : Q;
    label_accuracy : Q;
    mismatches : list Mismatch.t;
    label_mismatch_list : list string }.
End Report.

(** [calculate_metrics], from the loaded [json_results] on. The reference
    list is an argument, so that the harness can be run on other lists than
    the module's [GOLD_STANDARD]. *)
Definition calculate_metrics (json_results : list Rec.t)
    (GOLD_STANDARD : list Gold.t) : result Report.t :=
  let model_predictions := model_predictions_of json_results in
  let gold_truth := gold_truth_of GOLD_STANDARD in
  let c := foldl (count_item model_predictions)
             (Counts.mk 0 0 0 0 []) gold_truth in
  let tp := Counts.tp c in
  let size := Z.of_nat (length GOLD_STANDARD) in
  let* recall :=
    if 0 <? size
    then let* r := truediv (inject_Z tp) (inject_Z size) in Ok (r * 100)%Q
    else Ok 0%Q in
  let total_found_in_gold_set :=
    Counts.strict_tp c + Counts.strict_fp_label_error c in
  let* strict_precision :=
    if 0 <? total_found_in_gold_set
    then let* r := truediv (inject_Z (Counts.strict_tp c))
                     (inject_Z total_found_in_gold_set) in
         Ok (r * 100)%Q
    else Ok 0%Q in
  let* f1 :=
    if Qltb 0 (strict_precision + recall)
    then truediv (2 * (strict_precision * recall))%Q
           (strict_precision + recall)%Q
    else Ok 0%Q in
  let label_accuracy := strict_precision in
  Ok (Report.mk size tp total_found_in_gold_set (Counts.strict_tp c)
        (Counts.strict_fp_label_error c) (Counts.fn c)
        recall strict_precision f1 label_accuracy
        (Counts.printed c)
        (label_mismatch_list_of model_predictions gold_truth)).

(** ** The key of the specification

    The specification's [normalize(display_name) =
    lowercase(trim(display_name))], written from its words, to be compared
    with the key the aggregator uses. *)
Definition spec_normalize (display_name : string) : string :=
  Py.lower (Py.strip display_name).

(** ** What the properties are stated with *)

(** The labels an entry of the table can carry. *)
Definition ENTITY_LABELS : list string :=
  [ "Person"; "Organization"; "Location" ].

(** A span that passed every filter of the entity loop. *)
Definition accepted (s : Sighting.t) : Prop :=
  (CONFIDENCE_THRESHOLD <= Sighting.score s)%Q
  /\ (3 <= Py.len (Sighting.clean_word s))
  /\ (Sighting.clean_word s ∉ BLOCKLIST)
  /\ (Sighting.label s ∈ ENTITY_LABELS).

(** The larger of two scores; on a tie the earlier one stays. *)
Definition qmax (a b : Q) : Q := if Qltb a b then b else a.

(** The entry that a non-empty run of sightings of one name merges into:
    first label, largest score, all titles. *)
Definition merged (sightings : list Sighting.t) : option Data.t :=
  match sightings with
  | [] => None
  | first :: rest =>
      Some (Data.mk (Sighting.label first)
              (foldl qmax (Sighting.score first) (Sighting.score <$> rest))
              (list_to_set (Sighting.story_title <$> sightings)))
  end.

(** The sightings filed under the name [k]. *)
Definition sightings_of (k : string) (sightings : list Sighting.t)
  : list Sighting.t :=
  filter (fun s => Sighting.clean_word s = k) sightings.

(** The filters of lines 106-127 on their own: the sighting a span turns
    into when it passes them all, [None] when one of them rejects it, the
    exception when the repair raises. *)
Definition accepted_span (text story_title : string) (entity : Entity.t)
  : result (option Sighting.t) :=
  if Qltb (Entity.score entity) CONFIDENCE_THRESHOLD then Ok None
  else
    let* full_word_raw :=
      expand_to_full_word text (Entity.start entity) (Entity.end_ entity) in
    let clean_word := clean_entity_name full_word_raw in
    if Py.len clean_word <? 3 then Ok None
    else if bool_decide (clean_word ∈ BLOCKLIST) then Ok None
    else
      let label := label_of_group (Entity.entity_group entity) in
      if negb (String.eqb label "Unknown")
      then Ok (Some (Sighting.mk clean_word label (Entity.score entity)
                       story_title))
      else Ok None.

(** The sightings of one row, in order, up to the first exception. *)
Fixpoint accepted_of_results (text story_title : string)
    (results : list Entity.t) : list Sighting.t :=
  match results with
  | [] => []
  | entity :: rest =>
      match accepted_span text story_title entity with
      | Ok (Some s) => s :: accepted_of_results text story_title rest
      | Ok None => accepted_of_results text story_title rest
      | Raise _ => []
      end
  end.

Definition accepted_of_row
    (ner_pipeline : string -> result (list Entity.t)) (row : Row.t)
  : list Sighting.t :=
  if Py.len (Row.text row) <? 5 then []
  else
    match ner_pipeline (Row.text row) with
    | Ok results =>
        accepted_of_results (Row.text row) (Row.story_title row) results
    | Raise _ => []
    end.

(** The sightings of a whole run, in order. *)
Definition accepted_spans
    (ner_pipeline : string -> result (list Entity.t)) (rows : list Row.t)
  : list Sighting.t :=
  flat_map (accepted_of_row ner_pipeline) rows.

(** Every entry is at or above the threshold and carries an entity label. *)
Definition table_ok (unique_entities : gmap string Data.t) : Prop :=
  forall k d,
    unique_entities !! k = Some d ->
    (CONFIDENCE_THRESHOLD <= Data.score d)%Q
    /\ (Data.label d ∈ ENTITY_LABELS).

(** The counters of the coverage loop never go below zero, and the two
    true-positive counters move together. *)
Definition counts_ok (c : Counts.t) : Prop :=
  0 <= Counts.tp c /\ 0 <= Counts.fn c
  /\ 0 <= Counts.strict_fp_label_error c
  /\ Counts.strict_tp c = Counts.tp c.

(** Two predictions that differ at most in the case of name and label. *)
Definition same_up_to_case (a b : Rec.t) : Prop :=
  Py.lower (Rec.name a) = Py.lower (Rec.name b)
  /\ Py.lower (Rec.label a) = Py.lower (Rec.label b).

(** Two states of the coverage loop with the same counters and the same
    gold side of the printed lines. *)
Definition counts_agree (c c' : Counts.t) : Prop :=
  Counts.tp c = Counts.tp c'
  /\ Counts.fn c = Counts.fn c'
  /\ Counts.strict_tp c = Counts.strict_tp c'
  /\ Counts.strict_fp_label_error c = Counts.strict_fp_label_error c'
  /\ Mismatch.name <$> Counts.printed c = Mismatch.name <$> Counts.printed c'
  /\ Mismatch.gold_label <$> Counts.printed c
     = Mismatch.gold_label <$> Counts.printed c'.

(** ** Worked inputs *)

(** A text in which the labeling model reports the same name in two
    spellings. *)
Definition two_spellings_pipeline (text : string)
  : result (list Entity.t) :=
  Ok [ Entity.mk "PER" 0.9 0 4; Entity.mk "PER" 0.8 9 13 ].

Definition two_spellings_rows : list Row.t :=
  [ Row.mk "Arya dan arya" "S1" ].

(** Two accepted spans whose names differ by case only. *)
Definition two_spellings_sightings : list Sighting.t :=
  [ Sighting.mk "Arya" "Person" 0.7 "S1";
    Sighting.mk "arya" "Location" 0.9 "S2" ].

(** Three accepted spans of one name, the second with another label. *)
Definition three_sightings : list Sighting.t :=
  [ Sighting.mk "Arya" "Person" 0.7 "S2";
    Sighting.mk "Arya" "Location" 0.9 "S1";
    Sighting.mk "Arya" "Person" 0.8 "S2" ].

(** The reference list and the predictions of the evaluation scenario; the
    harness reads only the name and the label of a prediction. *)
Definition scenario_gold : list Gold.t :=
  [ Gold.mk "Prabu Basukesti" "Person"; Gold.mk "Medang Kamulan" "Location" ].

Definition scenario_predictions (c1 c2 : Q) (st1 st2 : list string)
  : list Rec.t :=
  [ Rec.mk "prabu basukesti" "Person" c1 st1;
    Rec.mk "medang kamulan" "Person" c2 st2 ].

(** ** More of the pipeline *)

(** *** [preprocess_text] *)

(** [re.sub(r'\s+', ' ', text)]: [sub_whitespace] scans outside a run of
    whitespace, [skip_whitespace] inside one. *)
Fixpoint sub_whitespace (text : string) : string :=
  match text with
  | EmptyString => EmptyString
  | String c rest =>
      if Py.isspace c then String " " (skip_whitespace rest)
      else String c (sub_whitespace rest)
  end
with skip_whitespace (text : string) : string :=
  match text with
  | EmptyString => EmptyString
  | String c rest =>
      if Py.isspace c then skip_whitespace rest
      else String c (sub_whitespace rest)
  end.

(** The class [[.,!?;:]]. *)
Definition SENTENCE_PUNCTUATION : list ascii :=
  [ "."; ","; "!"; "?"; ";"; ":" ]%char.

(** The class [[a-zA-Z]]. *)
Definition is_ascii_letter (c : ascii) : bool :=
  Py.between 97 122 c || Py.between 65 90 c.

(** The lookahead [(?=[a-zA-Z])]. *)
Definition letter_ahead (text : string) : bool :=
  match text with
  | EmptyString => false
  | String c _ => is_ascii_letter c
  end.

(** [re.sub(r'([.,!?;:])(?=[a-zA-Z])', r'\1 ', text)]. *)
Fixpoint space_after_punctuation (text : string) : string :=
  match text with
  | EmptyString => EmptyString
  | String c rest =>
      if Py.mem_char SENTENCE_PUNCTUATION c && letter_ahead rest
      then String c (String " " (space_after_punctuation rest))
      else String c (space_after_punctuation rest)
  end.

(** Whether [text] is a run of whitespace followed by the character [p]:
    what decides if [\s*p] matches at a position. *)
Fixpoint whitespace_then (p : ascii) (text : string) : bool :=
  match text with
  | EmptyString => false
  | String c rest =>
      if Ascii.eqb c p then true
      else if Py.isspace c then whitespace_then p rest
      else false
  end.

(** [re.sub(r'\s*p\s*', replacement, text)] for a character [p] that is not
    whitespace: [sub_around] scans outside a match (a whitespace character
    belongs to the next match exactly when only whitespace separates it
    from the next [p]), [skip_around] drops the whitespace that follows a
    matched [p]. *)
Fixpoint sub_around (p : ascii) (replacement text : string) : string :=
  match text with
  | EmptyString => EmptyString
  | String c rest =>
      if Ascii.eqb c p
      then replacement ++ skip_around p replacement rest
      else if Py.isspace c && whitespace_then p rest
      then sub_around p replacement rest
      else String c (sub_around p replacement rest)
  end
with skip_around (p : ascii) (replacement text : string) : string :=
  match text with
  | EmptyString => EmptyString
  | String c rest =>
      if Py.isspace c then skip_around p replacement rest
      else if Ascii.eqb c p
      then replacement ++ skip_around p replacement rest
      else String c (sub_around p replacement rest)
  end.

(** Lines 22-29, on a [str] argument. *)
Definition preprocess_text (text : string) : string :=
  let text := sub_whitespace text in
  let text := space_after_punctuation text in
  let text := sub_around "(" " (" text in
  let text := sub_around ")" ") " text in
  Py.strip text.

(** A row of the data frame: its ['Teks'] and ['Judul'] as strings. *)
Module CsvRow.
Record t : Type := mk
  { Teks : string;
    Judul : string }.
End CsvRow.

(** Lines 87-91: what the loop derives from a row before the length test. *)
Definition prepare_row (row : CsvRow.t) : Row.t :=
  Row.mk (preprocess_text (CsvRow.Teks row)) (Py.strip (CsvRow.Judul row)).

(** [run_ner_process] from the rows of the data frame on. *)
Definition run_ner_process_csv
    (ner_pipeline : string -> result (list Entity.t))
    (rows : list CsvRow.t) : list Rec.t :=
  run_ner_process ner_pipeline (prepare_row <$> rows).

(** *** extract_relationships.py *)

(** [load_valid_entities], from the loaded [data] on (line 28). *)
Definition load_valid_entities (data : list Rec.t) : list string :=
  Rec.name <$> List.filter (fun item => Qltb 0.6 (Rec.confidence item)) data.

(** ** Where a sighting comes from *)

(** [s] is what the loop makes of a span that the model reported for one
    of the rows: the row is long enough, the call returned, the span is at
    or above the threshold and its repair returned. *)
Definition span_source
    (ner_pipeline : string -> result (list Entity.t)) (rows : list Row.t)
    (s : Sighting.t) : Prop :=
  exists row results entity raw,
    row ∈ rows
    /\ 5 <= Py.len (Row.text row)
    /\ ner_pipeline (Row.text row) = Ok results
    /\ entity ∈ results
    /\ (CONFIDENCE_THRESHOLD <= Entity.score entity)%Q
    /\ expand_to_full_word (Row.text row) (Entity.start entity)
         (Entity.end_ entity) = Ok raw
    /\ s = Sighting.mk (clean_entity_name raw)
             (label_of_group (Entity.entity_group entity))
             (Entity.score entity) (Row.story_title row).

(** ** Shapes of strings *)

Definition head_is (p : ascii -> bool) (s : string) : bool :=
  match s with
  | EmptyString => false
  | String c _ => p c
  end.

Fixpoint last_is (p : ascii -> bool) (s : string) : bool :=
  match s with
  | EmptyString => false
  | String c EmptyString => p c
  | String _ rest => last_is p rest
  end.

Fixpoint all_chars (p : ascii -> bool) (s : string) : bool :=
  match s with
  | EmptyString => true
  | String c rest => p c && all_chars p rest
  end.

Definition is_space (c : ascii) : bool := Ascii.eqb c " ".

Definition is_hash (c : ascii) : bool := Ascii.eqb c "#".

(** Whether two characters of class [p] stand side by side in [s]. *)
Fixpoint has_adjacent (p : ascii -> bool) (s : string) : bool :=
  match s with
  | EmptyString => false
  | String c rest => (p c && head_is p rest) || has_adjacent p rest
  end.

(** Whether a character of class [p] is directly followed by one of class
    [q] somewhere in [s]. *)
Fixpoint has_pair (p q : ascii -> bool) (s : string) : bool :=
  match s with
  | EmptyString => false
  | String c rest => (p c && head_is q rest) || has_pair p q rest
  end.

(** Whitespace in normal form: the only whitespace characters are plain
    spaces, and no two whitespace characters are adjacent. *)
Definition plain_char (c : ascii) : bool :=
  negb (Py.isspace c) || is_space c.

Definition single_spaced (s : string) : bool :=
  all_chars plain_char s && negb (has_adjacent Py.isspace s).

(** The strict orders that go with [str_le] and [name_le]. *)
Definition str_lt (a b : string) : Prop := Is_true (String.ltb a b).

Definition name_lt (a b : Rec.t) : Prop :=
  str_lt (Rec.name a) (Rec.name b).

(** * Properties *)

(** ** Strings *)

Lemma get_in_range (s : string) (n : nat) :
  (n < String.length s)%nat -> exists c, String.get n s = Some c.
Proof.
  revert n. induction s as [|a s IH]; intros n Hn; simpl in Hn.
  - lia.
  - destruct n as [|n]; simpl.
    + eauto.
    + apply IH. lia.
Qed.

Lemma index_in_range (s : string) (i : Z) :
  - Py.len s <= i < Py.len s -> exists c, Py.index s i = Ok c.
Proof.
  intros Hi. unfold Py.index.
  set (j := if i <? 0 then i + Py.len s else i).
  assert (Hj : 0 <= j < Py.len s).
  { subst j. destruct (Z.ltb_spec i 0); lia. }
  destruct (Z.ltb_spec j 0); [lia|].
  destruct (Z.leb_spec (Py.len s) j); [lia|]. simpl.
  destruct (get_in_range s (Z.to_nat j)) as [c Hc].
  { unfold Py.len in Hj. lia. }
  rewrite Hc. eauto.
Qed.

Lemma index_below_range (s : string) (i : Z) :
  i < - Py.len s -> Py.index s i = Raise IndexError.
Proof.
  intros Hi. unfold Py.index.
  assert (Hlen : 0 <= Py.len s) by (unfold Py.len; lia).
  destruct (Z.ltb_spec i 0); [|lia].
  destruct (Z.ltb_spec (i + Py.len s) 0); [reflexivity|lia].
Qed.

Lemma length_substring (s : string) (n m : nat) :
  String.length (substring n m s) = Nat.min m (String.length s - n).
Proof.
  revert n m. induction s as [|a s IH]; intros n m.
  - destruct n, m; reflexivity.
  - destruct n as [|n].
    + destruct m as [|m]; simpl; [reflexivity|].
      rewrite IH. f_equal. f_equal. lia.
    + simpl. apply IH.
Qed.

Lemma len_nonneg (s : string) : 0 <= Py.len s.
Proof. unfold Py.len. lia. Qed.

Lemma len_slice (s : string) (start stop : Z) :
  0 <= start -> 0 <= stop <= Py.len s ->
  Py.len (Py.slice s start stop) = Z.max 0 (stop - start).
Proof.
  intros Hstart Hstop. unfold Py.slice, Py.slice_bound.
  destruct (Z.ltb_spec start 0); [lia|].
  destruct (Z.ltb_spec stop 0); [lia|].
  unfold Py.len in *. rewrite length_substring. lia.
Qed.

(** ** Span repair *)

Lemma expand_loop_spec (fuel : nat) (text : string) (current_end : Z) :
  - Py.len text <= current_end ->
  Py.len text - current_end <= Z.of_nat fuel ->
  exists e,
    expand_loop fuel text current_end = Ok e
    /\ current_end <= e
    /\ (e <= Py.len text \/ e = current_end)
    /\ (forall i, current_end <= i < e ->
          exists c, Py.index text i = Ok c /\ Py.isalnum c = true)
    /\ (Py.len text <= e
        \/ exists c, Py.index text e = Ok c /\ Py.isalnum c = false).
Proof.
  revert current_end.
  induction fuel as [|fuel IH]; intros ce Hlo Hfuel.
  - simpl. destruct (Z.ltb_spec ce (Py.len text)); [lia|].
    exists ce. repeat split; try lia; auto.
  - simpl. destruct (Z.ltb_spec ce (Py.len text)) as [Hlt|Hge].
    + destruct (index_in_range text ce) as [c Hc]; [lia|].
      rewrite Hc. simpl. destruct (Py.isalnum c) eqn:Halnum.
      * destruct (IH (ce + 1)) as (e & He & Hle & Hbound & Hall & Hstop);
          [lia|lia|].
        exists e. repeat split; try lia; auto.
        intros i Hi. destruct (Z.eq_dec i ce) as [->|Hne].
        -- eauto.
        -- apply Hall. lia.
      * exists ce. repeat split; try lia; eauto.
    + exists ce. repeat split; try lia; auto.
Qed.

Lemma expand_at_text_end (text : string) (start end_ : Z) :
  Py.len text <= end_ ->
  expand_to_full_word text start end_ = Ok (Py.slice text start end_).
Proof.
  intros Hend. unfold expand_to_full_word.
  destruct (Z.leb_spec (Py.len text) end_); [reflexivity|lia].
Qed.

Lemma expand_inside_text (text : string) (start end_ : Z) :
  - Py.len text <= end_ < Py.len text ->
  exists repaired_end,
    expand_to_full_word text start end_
      = Ok (Py.slice text start repaired_end)
    /\ end_ <= repaired_end <= Py.len text
    /\ (forall i, end_ <= i < repaired_end ->
          exists c, Py.index text i = Ok c /\ Py.isalnum c = true)
    /\ (repaired_end = Py.len text
        \/ exists c, Py.index text repaired_end = Ok c
                     /\ Py.isalnum c = false).
Proof.
  intros Hend. unfold expand_to_full_word.
  destruct (Z.leb_spec (Py.len text) end_); [lia|].
  destruct (expand_loop_spec (Z.to_nat (Py.len text - end_)) text end_)
    as (e & He & Hle & Hbound & Hall & Hstop); [lia|lia|].
  rewrite He. simpl. exists e. repeat split; auto; try lia.
  destruct Hstop as [Hstop|Hstop]; [left; lia|right; exact Hstop].
Qed.

(** The loop never runs out of fuel: below the text the first read raises
    [IndexError], everywhere else the function returns a string. *)
Lemma expand_outcome (text : string) (start end_ : Z) :
  (end_ < - Py.len text
   /\ expand_to_full_word text start end_ = Raise IndexError)
  \/ (- Py.len text <= end_
      /\ exists w, expand_to_full_word text start end_ = Ok w).
Proof.
  pose proof (len_nonneg text) as Hlen.
  destruct (Z.lt_ge_cases end_ (- Py.len text)) as [Hlow|Hlow].
  - left. split; [exact Hlow|]. unfold expand_to_full_word.
    destruct (Z.leb_spec (Py.len text) end_); [lia|].
    destruct (Z.to_nat (Py.len text - end_)); simpl;
      (destruct (Z.ltb_spec end_ (Py.len text)); [|lia]);
      rewrite index_below_range by lia; reflexivity.
  - right. split; [exact Hlow|].
    destruct (Z.le_gt_cases (Py.len text) end_) as [Hend|Hend].
    + rewrite expand_at_text_end by lia. eauto.
    + destruct (expand_inside_text text start end_) as (e & He & _);
        [lia|]. eauto.
Qed.

(** C6. Span repair follows the stated algorithm. When [end_] is at or past
    the end of the text the result is the slice [text[start:end_]] as it is.
    Otherwise the end position moves forward over alphanumeric characters
    only, stops at the first character that is not alphanumeric or at the
    end of the text, and the result is [text[start:repaired_end]]. On
    ["Arya Basusara adalah"] with offsets 0 and 8 the result is
    ["Arya Basusara"]. *)
Theorem expand_to_full_word_algorithm :
  (forall text start end_,
      Py.len text <= end_ ->
      expand_to_full_word text start end_ = Ok (Py.slice text start end_))
  /\ (forall text start end_,
         - Py.len text <= end_ < Py.len text ->
         exists repaired_end,
           expand_to_full_word text start end_
             = Ok (Py.slice text start repaired_end)
           /\ end_ <= repaired_end <= Py.len text
           /\ (forall i, end_ <= i < repaired_end ->
                 exists c, Py.index text i = Ok c /\ Py.isalnum c = true)
           /\ (repaired_end = Py.len text
               \/ exists c, Py.index text repaired_end = Ok c
                            /\ Py.isalnum c = false))
  /\ expand_to_full_word "Arya Basusara adalah" 0 8 = Ok "Arya Basusara".
Proof.
  split; [exact expand_at_text_end|].
  split; [exact expand_inside_text|].
  reflexivity.
Qed.

Lemma expand_to_full_word_algorithm_witness :
  (Py.len "Arya Bas" <= 8
   /\ expand_to_full_word "Arya Bas" 0 8 = Ok (Py.slice "Arya Bas" 0 8))
  /\ (- Py.len "Arya Basusara adalah" <= 8 < Py.len "Arya Basusara adalah"
      /\ exists repaired_end,
           expand_to_full_word "Arya Basusara adalah" 0 8
             = Ok (Py.slice "Arya Basusara adalah" 0 repaired_end)
           /\ 8 <= repaired_end <= Py.len "Arya Basusara adalah"
           /\ (forall i, 8 <= i < repaired_end ->
                 exists c, Py.index "Arya Basusara adalah" i = Ok c
                           /\ Py.isalnum c = true)
           /\ (repaired_end = Py.len "Arya Basusara adalah"
               \/ exists c,
                    Py.index "Arya Basusara adalah" repaired_end = Ok c
                    /\ Py.isalnum c = false)).
Proof.
  split.
  - assert (H : Py.len "Arya Bas" <= 8) by (vm_compute; discriminate).
    split; [exact H|].
    exact (proj1 expand_to_full_word_algorithm "Arya Bas" 0 8 H).
  - assert (H : - Py.len "Arya Basusara adalah" <= 8
                < Py.len "Arya Basusara adalah")
      by (split; vm_compute; [discriminate|reflexivity]).
    split; [exact H|].
    exact (proj1 (proj2 expand_to_full_word_algorithm)
             "Arya Basusara adalah" 0 8 H).
Defined.

(** C8. Repair never shrinks a span: for offsets inside the text
    ([0 <= start], [0 <= end_ <= len(text)]) the repaired string exists and
    is at least [end_ - start] characters long. *)
Theorem expand_never_shrinks (text : string) (start end_ : Z) :
  0 <= start -> 0 <= end_ <= Py.len text ->
  exists w,
    expand_to_full_word text start end_ = Ok w
    /\ end_ - start <= Py.len w.
Proof.
  intros Hstart Hend.
  destruct (Z.le_gt_cases (Py.len text) end_) as [Hat|Hin].
  - rewrite expand_at_text_end by lia.
    eexists. split; [reflexivity|].
    rewrite len_slice by lia. lia.
  - destruct (expand_inside_text text start end_)
      as (e & He & Hle & _); [lia|].
    rewrite He. eexists. split; [reflexivity|].
    rewrite len_slice by lia. lia.
Qed.

Lemma expand_never_shrinks_witness :
  exists w,
    expand_to_full_word "Arya Basusara adalah" 5 8 = Ok w
    /\ 8 - 5 <= Py.len w.
Proof.
  apply (expand_never_shrinks "Arya Basusara adalah" 5 8).
  - lia.
  - split; vm_compute; discriminate.
Defined.

(** Outside these offsets the bound can fail: past the end of the text the
    slice is cut at the text's length. *)
Example expand_past_text_end :
  expand_to_full_word "ab" 0 5 = Ok "ab".
Proof. reflexivity. Qed.

(** ** Cleaning *)

Example clean_punctuation_and_spaces :
  clean_entity_name "  (Prabu   Basukesti), " = "Prabu Basukesti".
Proof. reflexivity. Qed.

Example clean_marker_inside_word :
  clean_entity_name "Bam##bang" = "Bambang".
Proof. reflexivity. Qed.

(** C3, as stated, fails: the cleaned string still has its space, so it is
    not ["Bambang"]. *)
Lemma bam_bang_is_not_bambang :
  String.eqb (clean_entity_name "Bam ##bang") "Bambang" = false
  /\ clean_entity_name "Bam ##bang" <> "Bambang".
Proof. split; [reflexivity|vm_compute; discriminate]. Qed.

(** C3 (amended). Cleaning ["Bam ##bang"] removes the continuation marker
    ["##"] and keeps the space in front of it: the result is the two-word
    string ["Bam bang"]. *)
Theorem clean_bam_bang :
  clean_entity_name "Bam ##bang" = "Bam bang".
Proof. reflexivity. Qed.

(** ** Score comparison *)

Lemma Qltb_lt (x y : Q) : Qltb x y = true <-> (x < y)%Q.
Proof. unfold Qltb, Qlt. apply Z.ltb_lt. Qed.

Lemma Qltb_ge (x y : Q) : Qltb x y = false <-> (y <= x)%Q.
Proof. unfold Qltb, Qle. apply Z.ltb_ge. Qed.

Lemma qmax_ge_l (a b : Q) : (a <= qmax a b)%Q.
Proof.
  unfold qmax. destruct (Qltb a b) eqn:E.
  - apply Qltb_lt in E. apply Qlt_le_weak, E.
  - apply Qle_refl.
Qed.

Lemma qmax_ge_r (a b : Q) : (b <= qmax a b)%Q.
Proof.
  unfold qmax. destruct (Qltb a b) eqn:E.
  - apply Qle_refl.
  - apply Qltb_ge in E. exact E.
Qed.

Lemma qmax_cases (a b : Q) : qmax a b = a \/ qmax a b = b.
Proof. unfold qmax. destruct (Qltb a b); auto. Qed.

Lemma foldl_qmax_ge_init (a : Q) (l : list Q) : (a <= foldl qmax a l)%Q.
Proof.
  revert a. induction l as [|b l IH]; intros a; simpl.
  - apply Qle_refl.
  - eapply Qle_trans; [apply qmax_ge_l|apply IH].
Qed.

Lemma foldl_qmax_ge (a : Q) (l : list Q) (x : Q) :
  x ∈ l -> (x <= foldl qmax a l)%Q.
Proof.
  revert a. induction l as [|b l IH]; intros a Hx.
  - inversion Hx.
  - apply elem_of_cons in Hx as [->|Hx]; simpl.
    + eapply Qle_trans; [apply qmax_ge_r|apply foldl_qmax_ge_init].
    + apply IH, Hx.
Qed.

Lemma foldl_qmax_elem (a : Q) (l : list Q) : foldl qmax a l ∈ a :: l.
Proof.
  revert a. induction l as [|b l IH]; intros a; simpl.
  - apply list_elem_of_here.
  - specialize (IH (qmax a b)).
    apply elem_of_cons in IH as [IH|IH].
    + rewrite IH. destruct (qmax_cases a b) as [->| ->].
      * apply list_elem_of_here.
      * apply list_elem_of_further, list_elem_of_here.
    + apply list_elem_of_further, list_elem_of_further, IH.
Qed.

(** ** One step of the aggregator *)

Lemma aggregate_lookup_other (ue : gmap string Data.t)
    (w l : string) (q : Q) (t k : string) :
  k <> w -> aggregate ue w l q t !! k = ue !! k.
Proof.
  intros Hne. unfold aggregate.
  destruct (ue !! w); rewrite lookup_insert_ne; auto.
Qed.

Lemma aggregate_lookup_new (ue : gmap string Data.t)
    (w l : string) (q : Q) (t : string) :
  ue !! w = None ->
  aggregate ue w l q t !! w = Some (Data.mk l q {[t]}).
Proof.
  intros Hw. unfold aggregate. rewrite Hw. apply lookup_insert_eq.
Qed.

Lemma aggregate_lookup_old (ue : gmap string Data.t)
    (w l : string) (q : Q) (t : string) (d : Data.t) :
  ue !! w = Some d ->
  aggregate ue w l q t !! w
  = Some (Data.mk (Data.label d) (qmax (Data.score d) q)
            ({[t]} ∪ Data.stories d)).
Proof.
  intros Hw. unfold aggregate. rewrite Hw. apply lookup_insert_eq.
Qed.

Lemma aggregate_all_snoc (ue : gmap string Data.t)
    (sightings : list Sighting.t) (s : Sighting.t) :
  aggregate_all ue (sightings ++ [s])
  = aggregate_sighting (aggregate_all ue sightings) s.
Proof. unfold aggregate_all. apply foldl_snoc. Qed.

Lemma sightings_of_snoc (k : string) (sightings : list Sighting.t)
    (s : Sighting.t) :
  sightings_of k (sightings ++ [s])
  = if decide (Sighting.clean_word s = k)
    then (sightings_of k sightings ++ [s])%list
    else sightings_of k sightings.
Proof.
  unfold sightings_of. rewrite filter_app, filter_cons, filter_nil.
  destruct (decide (Sighting.clean_word s = k));
    [reflexivity|apply app_nil_r].
Qed.

Lemma merged_snoc (sightings : list Sighting.t) (s : Sighting.t) :
  merged (sightings ++ [s])
  = match merged sightings with
    | None =>
        Some (Data.mk (Sighting.label s) (Sighting.score s)
                {[Sighting.story_title s]})
    | Some d =>
        Some (Data.mk (Data.label d) (qmax (Data.score d) (Sighting.score s))
                ({[Sighting.story_title s]} ∪ Data.stories d))
    end.
Proof.
  destruct sightings as [|first rest].
  - simpl. f_equal. f_equal. apply (right_id_L ∅ (∪)).
  - change (merged ((first :: rest) ++ [s]))
      with (Some (Data.mk (Sighting.label first)
                    (foldl qmax (Sighting.score first)
                       (Sighting.score <$> (rest ++ [s])%list))
                    (list_to_set (Sighting.story_title
                                    <$> ((first :: rest) ++ [s])%list)))).
    unfold merged. f_equal. f_equal.
    + rewrite fmap_app, foldl_app. reflexivity.
    + rewrite fmap_app, list_to_set_app_L. simpl.
      rewrite (right_id_L ∅ (∪)). apply (comm_L (∪)).
Qed.

(** The table is, name by name, the merge of the sightings of that name. *)
Lemma aggregate_all_lookup (sightings : list Sighting.t) (k : string) :
  aggregate_all ∅ sightings !! k = merged (sightings_of k sightings).
Proof.
  induction sightings as [|s sightings IH] using rev_ind.
  - reflexivity.
  - rewrite aggregate_all_snoc, sightings_of_snoc.
    unfold aggregate_sighting.
    destruct (decide (Sighting.clean_word s = k)) as [Heq|Hne].
    + subst k. rewrite merged_snoc, <- IH.
      destruct (aggregate_all ∅ sightings !! Sighting.clean_word s)
        as [d|] eqn:Hd.
      * apply aggregate_lookup_old, Hd.
      * apply aggregate_lookup_new, Hd.
    + rewrite aggregate_lookup_other by congruence. exact IH.
Qed.

(** ** The entity loop *)

Lemma label_of_group_cases (group : string) :
  ((group ∈ ["PER"; "ORG"; "LOC"]) /\ (label_of_group group ∈ ENTITY_LABELS))
  \/ ((group ∉ ["PER"; "ORG"; "LOC"]) /\ label_of_group group = "Unknown").
Proof.
  unfold label_of_group, ENTITY_LABELS.
  destruct (String.eqb_spec group "PER") as [->|HP].
  { left. split; apply list_elem_of_here. }
  destruct (String.eqb_spec group "ORG") as [->|HO].
  { left. split; apply list_elem_of_further, list_elem_of_here. }
  destruct (String.eqb_spec group "LOC") as [->|HL].
  { left. split; do 2 apply list_elem_of_further; apply list_elem_of_here. }
  right. split; [|reflexivity].
  rewrite !elem_of_cons, elem_of_nil. tauto.
Qed.

Lemma unknown_not_entity_label : "Unknown" ∉ ENTITY_LABELS.
Proof.
  unfold ENTITY_LABELS. rewrite !elem_of_cons, elem_of_nil.
  intros [H|[H|[H|H]]]; try discriminate H. exact H.
Qed.

(** What a returning call of the loop body did: nothing, or the aggregation
    of a span that passed every filter. *)
Lemma process_entity_Ok (text story_title : string)
    (ue ue' : gmap string Data.t) (entity : Entity.t) :
  process_entity text story_title ue entity = Ok ue' ->
  ue' = ue
  \/ exists raw,
       expand_to_full_word text (Entity.start entity) (Entity.end_ entity)
         = Ok raw
       /\ accepted (Sighting.mk (clean_entity_name raw)
                      (label_of_group (Entity.entity_group entity))
                      (Entity.score entity) story_title)
       /\ ue' = aggregate ue (clean_entity_name raw)
                  (label_of_group (Entity.entity_group entity))
                  (Entity.score entity) story_title.
Proof.
  unfold process_entity.
  destruct (Qltb (Entity.score entity) CONFIDENCE_THRESHOLD) eqn:Hscore.
  { intros [= <-]. left; reflexivity. }
  destruct (expand_to_full_word text (Entity.start entity)
              (Entity.end_ entity)) as [raw|e] eqn:Hraw; simpl;
    [|discriminate].
  destruct (Z.ltb_spec (Py.len (clean_entity_name raw)) 3) as [Hshort|Hlong].
  { intros [= <-]. left; reflexivity. }
  destruct (bool_decide (clean_entity_name raw ∈ BLOCKLIST)) eqn:Hblock.
  { intros [= <-]. left; reflexivity. }
  destruct (String.eqb_spec
              (label_of_group (Entity.entity_group entity)) "Unknown")
    as [Hunk|Hknown]; simpl.
  { intros [= <-]. left; reflexivity. }
  intros [= <-]. right. exists raw. split; [reflexivity|].
  split; [|reflexivity].
  unfold accepted; simpl. split; [apply Qltb_ge, Hscore|].
  split; [exact Hlong|].
  split; [apply bool_decide_eq_false in Hblock; exact Hblock|].
  destruct (label_of_group_cases (Entity.entity_group entity))
    as [[_ H]|[_ H]]; [exact H|contradiction].
Qed.

Lemma process_entity_below_threshold (text story_title : string)
    (ue : gmap string Data.t) (entity : Entity.t) :
  (Entity.score entity < CONFIDENCE_THRESHOLD)%Q ->
  process_entity text story_title ue entity = Ok ue.
Proof.
  intros Hscore. unfold process_entity.
  apply Qltb_lt in Hscore. rewrite Hscore. reflexivity.
Qed.

Lemma process_entity_junk (text story_title : string)
    (ue : gmap string Data.t) (entity : Entity.t) (raw : string) :
  expand_to_full_word text (Entity.start entity) (Entity.end_ entity)
    = Ok raw ->
  Py.len (clean_entity_name raw) < 3 \/ clean_entity_name raw ∈ BLOCKLIST ->
  process_entity text story_title ue entity = Ok ue.
Proof.
  intros Hraw Hjunk. unfold process_entity.
  destruct (Qltb (Entity.score entity) CONFIDENCE_THRESHOLD);
    [reflexivity|].
  rewrite Hraw. simpl.
  destruct (Z.ltb_spec (Py.len (clean_entity_name raw)) 3) as [Hshort|Hlong];
    [reflexivity|].
  destruct Hjunk as [Hshort|Hblock]; [lia|].
  rewrite bool_decide_eq_true_2 by exact Hblock. reflexivity.
Qed.

Lemma process_entity_other_group (text story_title : string)
    (ue ue' : gmap string Data.t) (entity : Entity.t) :
  Entity.entity_group entity ∉ ["PER"; "ORG"; "LOC"] ->
  process_entity text story_title ue entity = Ok ue' -> ue' = ue.
Proof.
  intros Hgroup Hok.
  destruct (process_entity_Ok _ _ _ _ _ Hok)
    as [Hsame|(raw & _ & (_ & _ & _ & Hlabel) & _)]; [exact Hsame|].
  simpl in Hlabel.
  destruct (label_of_group_cases (Entity.entity_group entity))
    as [[Hin _]|[_ Hunk]]; [contradiction|].
  rewrite Hunk in Hlabel. destruct (unknown_not_entity_label Hlabel).
Qed.

(** C7. A reported span changes the entity table only if its confidence is
    at least the threshold (0.60), its cleaned string has at least 3
    characters and its cleaned string is not in the blocklist. A span below
    the threshold is rejected at once, whatever repair and cleaning would
    have produced; a repaired span whose cleaned string is too short or
    blocklisted is rejected. *)
Theorem span_filter (text story_title : string)
    (unique_entities : gmap string Data.t) (entity : Entity.t) :
  (CONFIDENCE_THRESHOLD == 60 # 100)%Q
  /\ ((Entity.score entity < CONFIDENCE_THRESHOLD)%Q ->
      process_entity text story_title unique_entities entity
      = Ok unique_entities)
  /\ (forall raw,
         expand_to_full_word text (Entity.start entity) (Entity.end_ entity)
           = Ok raw ->
         Py.len (clean_entity_name raw) < 3
         \/ clean_entity_name raw ∈ BLOCKLIST ->
         process_entity text story_title unique_entities entity
         = Ok unique_entities)
  /\ (forall unique_entities',
         process_entity text story_title unique_entities entity
           = Ok unique_entities' ->
         unique_entities' <> unique_entities ->
         (CONFIDENCE_THRESHOLD <= Entity.score entity)%Q
         /\ exists raw,
              expand_to_full_word text (Entity.start entity)
                (Entity.end_ entity) = Ok raw
              /\ 3 <= Py.len (clean_entity_name raw)
              /\ clean_entity_name raw ∉ BLOCKLIST).
Proof.
  split; [reflexivity|].
  split; [apply process_entity_below_threshold|].
  split; [apply process_entity_junk|].
  intros ue' Hok Hchanged.
  destruct (process_entity_Ok _ _ _ _ _ Hok)
    as [Hsame|(raw & Hraw & (Hscore & Hlen & Hblock & _) & _)];
    [contradiction|].
  simpl in *. split; [exact Hscore|]. exists raw. auto.
Qed.

(** The threshold is tested before the span is repaired: with an end offset
    that makes the repair raise, a span below the threshold is dropped
    quietly and one at the threshold raises. *)
Example threshold_before_repair :
  process_entity "ab" "S1" ∅ (Entity.mk "PER" 0.59 0 (-5)) = Ok ∅
  /\ process_entity "ab" "S1" ∅ (Entity.mk "PER" 0.60 0 (-5))
     = Raise IndexError.
Proof. split; reflexivity. Qed.

Lemma span_filter_witness :
  ((0.5 < CONFIDENCE_THRESHOLD)%Q
   /\ process_entity "Arya Basusara adalah" "S1" ∅ (Entity.mk "PER" 0.5 0 8)
      = Ok ∅)
  /\ (expand_to_full_word "Sang Arya" 0 4 = Ok "Sang"
      /\ (Py.len (clean_entity_name "Sang") < 3
          \/ clean_entity_name "Sang" ∈ BLOCKLIST)
      /\ process_entity "Sang Arya" "S1" ∅ (Entity.mk "PER" 0.9 0 4) = Ok ∅)
  /\ (exists unique_entities',
         process_entity "Arya Basusara adalah" "S1" ∅
           (Entity.mk "PER" 0.61 0 8) = Ok unique_entities'
         /\ unique_entities' <> ∅
         /\ (CONFIDENCE_THRESHOLD <= 0.61)%Q
         /\ exists raw,
              expand_to_full_word "Arya Basusara adalah" 0 8 = Ok raw
              /\ 3 <= Py.len (clean_entity_name raw)
              /\ clean_entity_name raw ∉ BLOCKLIST).
Proof.
  split; [|split].
  - assert (H : (0.5 < CONFIDENCE_THRESHOLD)%Q) by reflexivity.
    split; [exact H|].
    exact (proj1 (proj2 (span_filter "Arya Basusara adalah" "S1" ∅
                           (Entity.mk "PER" 0.5 0 8))) H).
  - assert (Hraw : expand_to_full_word "Sang Arya" 0 4 = Ok "Sang")
      by reflexivity.
    assert (Hjunk : Py.len (clean_entity_name "Sang") < 3
                    \/ clean_entity_name "Sang" ∈ BLOCKLIST).
    { right. apply (bool_decide_unpack (clean_entity_name "Sang" ∈ BLOCKLIST)).
      vm_compute. exact I. }
    split; [exact Hraw|]. split; [exact Hjunk|].
    exact (proj1 (proj2 (proj2 (span_filter "Sang Arya" "S1" ∅
                                  (Entity.mk "PER" 0.9 0 4))))
             "Sang" Hraw Hjunk).
  - exists (aggregate ∅ "Arya Basusara" "Person" 0.61 "S1").
    assert (Hok : process_entity "Arya Basusara adalah" "S1" ∅
                    (Entity.mk "PER" 0.61 0 8)
                  = Ok (aggregate ∅ "Arya Basusara" "Person" 0.61 "S1"))
      by reflexivity.
    assert (Hne : aggregate ∅ "Arya Basusara" "Person" 0.61 "S1"
                  <> (∅ : gmap string Data.t)).
    { unfold aggregate. rewrite lookup_empty. apply insert_non_empty. }
    split; [exact Hok|]. split; [exact Hne|].
    exact (proj2 (proj2 (proj2 (span_filter "Arya Basusara adalah" "S1" ∅
                                  (Entity.mk "PER" 0.61 0 8))))
             _ Hok Hne).
Defined.

(** ** The whole run *)

Lemma process_entity_accepted_span (text story_title : string)
    (ue : gmap string Data.t) (entity : Entity.t) :
  process_entity text story_title ue entity
  = let* o := accepted_span text story_title entity in
    Ok (match o with
        | Some s => aggregate_sighting ue s
        | None => ue
        end).
Proof.
  unfold process_entity, accepted_span.
  destruct (Qltb (Entity.score entity) CONFIDENCE_THRESHOLD); [reflexivity|].
  destruct (expand_to_full_word text (Entity.start entity)
              (Entity.end_ entity)) as [raw|e]; [|reflexivity].
  cbn [bind].
  destruct (Py.len (clean_entity_name raw) <? 3); [reflexivity|].
  destruct (bool_decide (clean_entity_name raw ∈ BLOCKLIST)); [reflexivity|].
  destruct (negb _); reflexivity.
Qed.

Lemma accepted_span_accepted (text story_title : string)
    (entity : Entity.t) (s : Sighting.t) :
  accepted_span text story_title entity = Ok (Some s) -> accepted s.
Proof.
  unfold accepted_span.
  destruct (Qltb (Entity.score entity) CONFIDENCE_THRESHOLD) eqn:Hscore;
    [discriminate|].
  destruct (expand_to_full_word text (Entity.start entity)
              (Entity.end_ entity)) as [raw|e]; [|discriminate].
  cbn [bind].
  destruct (Z.ltb_spec (Py.len (clean_entity_name raw)) 3) as [Hshort|Hlong];
    [discriminate|].
  destruct (bool_decide (clean_entity_name raw ∈ BLOCKLIST)) eqn:Hblock;
    [discriminate|].
  destruct (String.eqb_spec
              (label_of_group (Entity.entity_group entity)) "Unknown")
    as [Hunk|Hknown]; simpl; [discriminate|].
  intros [= <-]. unfold accepted. simpl.
  split; [apply Qltb_ge, Hscore|]. split; [exact Hlong|].
  split; [apply bool_decide_eq_false in Hblock; exact Hblock|].
  destruct (label_of_group_cases (Entity.entity_group entity))
    as [[_ H]|[_ H]]; [exact H|contradiction].
Qed.

Lemma process_entities_accepted (text story_title : string)
    (ue : gmap string Data.t) (results : list Entity.t) :
  process_entities text story_title ue results
  = aggregate_all ue (accepted_of_results text story_title results).
Proof.
  revert ue. induction results as [|entity rest IH]; intros ue; simpl.
  - reflexivity.
  - rewrite process_entity_accepted_span.
    destruct (accepted_span text story_title entity) as [[s|]|e];
      cbn [bind]; [apply IH|apply IH|reflexivity].
Qed.

Lemma accepted_of_results_accepted (text story_title : string)
    (results : list Entity.t) :
  Forall accepted (accepted_of_results text story_title results).
Proof.
  induction results as [|entity rest IH]; simpl; [constructor|].
  destruct (accepted_span text story_title entity) as [[s|]|e] eqn:Hs;
    [|exact IH|constructor].
  constructor; [|exact IH].
  eapply accepted_span_accepted, Hs.
Qed.

Lemma process_row_accepted
    (ner_pipeline : string -> result (list Entity.t))
    (ue : gmap string Data.t) (row : Row.t) :
  process_row ner_pipeline ue row
  = aggregate_all ue (accepted_of_row ner_pipeline row).
Proof.
  unfold process_row, accepted_of_row.
  destruct (Py.len (Row.text row) <? 5); [reflexivity|].
  destruct (ner_pipeline (Row.text row)) as [results|e]; [|reflexivity].
  apply process_entities_accepted.
Qed.

Lemma accepted_of_row_accepted
    (ner_pipeline : string -> result (list Entity.t)) (row : Row.t) :
  Forall accepted (accepted_of_row ner_pipeline row).
Proof.
  unfold accepted_of_row.
  destruct (Py.len (Row.text row) <? 5); [constructor|].
  destruct (ner_pipeline (Row.text row)) as [results|e]; [|constructor].
  apply accepted_of_results_accepted.
Qed.

Lemma foldl_process_row_accepted
    (ner_pipeline : string -> result (list Entity.t))
    (rows : list Row.t) (ue : gmap string Data.t) :
  foldl (process_row ner_pipeline) ue rows
  = aggregate_all ue (accepted_spans ner_pipeline rows).
Proof.
  revert ue. induction rows as [|row rows IH]; intros ue; simpl.
  - reflexivity.
  - rewrite IH, process_row_accepted. unfold aggregate_all.
    symmetry. apply foldl_app.
Qed.

(** The table of a run is the aggregation, in order, of the spans that
    passed every filter. *)
Lemma process_rows_accepted
    (ner_pipeline : string -> result (list Entity.t)) (rows : list Row.t) :
  process_rows ner_pipeline rows
  = aggregate_all ∅ (accepted_spans ner_pipeline rows).
Proof. apply foldl_process_row_accepted. Qed.

Lemma accepted_spans_accepted
    (ner_pipeline : string -> result (list Entity.t)) (rows : list Row.t) :
  Forall accepted (accepted_spans ner_pipeline rows).
Proof.
  unfold accepted_spans. induction rows as [|row rows IH]; simpl.
  - constructor.
  - apply Forall_app. split; [apply accepted_of_row_accepted|exact IH].
Qed.

Lemma sightings_of_elem (k : string) (sightings : list Sighting.t)
    (s : Sighting.t) :
  s ∈ sightings_of k sightings <-> s ∈ sightings /\ Sighting.clean_word s = k.
Proof.
  unfold sightings_of. rewrite list_elem_of_filter. tauto.
Qed.

Lemma merged_table_ok (sightings : list Sighting.t) (d : Data.t) :
  Forall accepted sightings ->
  merged sightings = Some d ->
  (CONFIDENCE_THRESHOLD <= Data.score d)%Q /\ (Data.label d ∈ ENTITY_LABELS).
Proof.
  intros Hacc Hd. destruct sightings as [|first rest]; [discriminate|].
  injection Hd as <-. simpl.
  apply Forall_cons in Hacc as [(Hscore & _ & _ & Hlabel) _].
  split; [|exact Hlabel].
  eapply Qle_trans; [exact Hscore|apply foldl_qmax_ge_init].
Qed.

Lemma aggregate_all_table_ok (sightings : list Sighting.t) :
  Forall accepted sightings -> table_ok (aggregate_all ∅ sightings).
Proof.
  intros Hacc k d Hd. rewrite aggregate_all_lookup in Hd.
  eapply merged_table_ok; [|exact Hd].
  apply Forall_forall. intros s Hs.
  apply sightings_of_elem in Hs as [Hs _].
  rewrite Forall_forall in Hacc. exact (Hacc s Hs).
Qed.

Lemma elem_of_final_output (ue : gmap string Data.t) (r : Rec.t) :
  r ∈ final_output ue <-> exists k d, ue !! k = Some d /\ r = to_record (k, d).
Proof.
  unfold final_output. rewrite merge_sort_Permutation, list_elem_of_fmap.
  split.
  - intros ([k d] & -> & Hkd). apply elem_of_map_to_list in Hkd. eauto.
  - intros (k & d & Hkd & ->). exists (k, d).
    split; [reflexivity|]. apply elem_of_map_to_list, Hkd.
Qed.

Lemma names_final_output (ue : gmap string Data.t) :
  Rec.name <$> final_output ue ≡ₚ (map_to_list ue).*1.
Proof.
  unfold final_output. rewrite merge_sort_Permutation, <- list_fmap_compose.
  reflexivity.
Qed.

Lemma final_output_NoDup (ue : gmap string Data.t) :
  NoDup (Rec.name <$> final_output ue).
Proof. rewrite names_final_output. apply NoDup_fst_map_to_list. Qed.

Lemma name_in_final_output (sightings : list Sighting.t) (k : string) :
  k ∈ Rec.name <$> final_output (aggregate_all ∅ sightings)
  <-> k ∈ Sighting.clean_word <$> sightings.
Proof.
  rewrite names_final_output, !list_elem_of_fmap. split.
  - intros ([k' d] & -> & Hkd). simpl.
    apply elem_of_map_to_list in Hkd. rewrite aggregate_all_lookup in Hkd.
    destruct (sightings_of k' sightings) as [|s ss] eqn:Hss; [discriminate|].
    assert (Hs : s ∈ sightings_of k' sightings)
      by (rewrite Hss; apply list_elem_of_here).
    apply sightings_of_elem in Hs as [Hs <-]. exists s. auto.
  - intros (s & -> & Hs).
    destruct (merged (sightings_of (Sighting.clean_word s) sightings))
      as [d|] eqn:Hd.
    + exists (Sighting.clean_word s, d). split; [reflexivity|].
      apply elem_of_map_to_list. rewrite aggregate_all_lookup. exact Hd.
    + exfalso. destruct (sightings_of (Sighting.clean_word s) sightings)
        as [|s' ss] eqn:Hss; [|discriminate].
      assert (Hin : s ∈ sightings_of (Sighting.clean_word s) sightings)
        by (apply sightings_of_elem; auto).
      rewrite Hss in Hin. inversion Hin.
Qed.

Lemma run_ner_process_bounds
    (ner_pipeline : string -> result (list Entity.t)) (rows : list Row.t)
    (r : Rec.t) :
  r ∈ run_ner_process ner_pipeline rows ->
  (CONFIDENCE_THRESHOLD <= Rec.confidence r)%Q /\ (Rec.label r ∈ ENTITY_LABELS).
Proof.
  unfold run_ner_process. intros Hr.
  apply elem_of_final_output in Hr as (k & d & Hkd & ->).
  rewrite process_rows_accepted in Hkd.
  exact (aggregate_all_table_ok _ (accepted_spans_accepted ner_pipeline rows)
           k d Hkd).
Qed.

Lemma rejected_span_no_update (text story_title : string)
    (ue : gmap string Data.t) (entity : Entity.t) :
  (Entity.score entity < CONFIDENCE_THRESHOLD)%Q
  \/ (Entity.entity_group entity ∉ ["PER"; "ORG"; "LOC"]) ->
  process_entities text story_title ue [entity] = ue.
Proof.
  intros Hrej. simpl.
  destruct (process_entity text story_title ue entity) as [ue'|e] eqn:Hok;
    [|reflexivity].
  destruct Hrej as [Hlow|Hgroup].
  - rewrite process_entity_below_threshold in Hok by exact Hlow.
    congruence.
  - eapply process_entity_other_group; eauto.
Qed.

Lemma aggregate_score_monotone (ue : gmap string Data.t)
    (w l : string) (q : Q) (t : string) (d : Data.t) :
  ue !! w = Some d ->
  exists d',
    aggregate ue w l q t !! w = Some d'
    /\ (Data.score d <= Data.score d')%Q
    /\ (q <= Data.score d')%Q.
Proof.
  intros Hd. rewrite (aggregate_lookup_old _ _ _ _ _ _ Hd).
  eexists. split; [reflexivity|]. simpl.
  split; [apply qmax_ge_l|apply qmax_ge_r].
Qed.

(** C10. Every record of the serialized entity table has a confidence of at
    least the threshold 0.60 and one of the labels Person, Organization,
    Location. A span below the threshold or of any other label group leaves
    the table as it was, and merging a further sighting into an entry never
    lowers the stored confidence. *)
Theorem entity_table_bounds :
  (forall ner_pipeline rows r,
      r ∈ run_ner_process ner_pipeline rows ->
      (CONFIDENCE_THRESHOLD <= Rec.confidence r)%Q
      /\ (Rec.label r ∈ ENTITY_LABELS))
  /\ (forall text story_title unique_entities entity,
         (Entity.score entity < CONFIDENCE_THRESHOLD)%Q
         \/ (Entity.entity_group entity ∉ ["PER"; "ORG"; "LOC"]) ->
         process_entities text story_title unique_entities [entity]
         = unique_entities)
  /\ (forall (unique_entities : gmap string Data.t) clean_word label score
             story_title data,
         unique_entities !! clean_word = Some data ->
         exists data',
           aggregate unique_entities clean_word label score story_title
             !! clean_word = Some data'
           /\ (Data.score data <= Data.score data')%Q
           /\ (score <= Data.score data')%Q).
Proof.
  split; [exact run_ner_process_bounds|].
  split; [exact rejected_span_no_update|].
  exact aggregate_score_monotone.
Qed.

Lemma entity_table_bounds_witness :
  (Rec.mk "Arya" "Person" 0.9 ["S1"]
     ∈ run_ner_process two_spellings_pipeline two_spellings_rows
   /\ (CONFIDENCE_THRESHOLD <= 0.9)%Q
   /\ ("Person" ∈ ENTITY_LABELS))
  /\ (((0.59 < CONFIDENCE_THRESHOLD)%Q \/ ("PER" ∉ ["PER"; "ORG"; "LOC"]))
      /\ process_entities "Arya dan arya" "S1" ∅ [Entity.mk "PER" 0.59 0 4]
         = ∅)
  /\ (({["Arya" := Data.mk "Person" 0.7 {["S1"]}]} : gmap string Data.t)
        !! "Arya" = Some (Data.mk "Person" 0.7 {["S1"]})
      /\ exists data',
           aggregate {["Arya" := Data.mk "Person" 0.7 {["S1"]}]}
             "Arya" "Location" 0.65 "S2" !! "Arya" = Some data'
           /\ (0.7 <= Data.score data')%Q
           /\ (0.65 <= Data.score data')%Q).
Proof.
  split; [|split].
  - assert (H : Rec.mk "Arya" "Person" 0.9 ["S1"]
                  ∈ run_ner_process two_spellings_pipeline two_spellings_rows).
    { replace (run_ner_process two_spellings_pipeline two_spellings_rows)
        with [ Rec.mk "Arya" "Person" 0.9 ["S1"];
               Rec.mk "arya" "Person" 0.8 ["S1"] ]
        by (vm_compute; reflexivity).
      apply list_elem_of_here. }
    split; [exact H|].
    exact (proj1 entity_table_bounds _ _ _ H).
  - assert (H : (0.59 < CONFIDENCE_THRESHOLD)%Q
                \/ ("PER" ∉ ["PER"; "ORG"; "LOC"])) by (left; reflexivity).
    split; [exact H|].
    exact (proj1 (proj2 entity_table_bounds) "Arya dan arya" "S1" ∅
             (Entity.mk "PER" 0.59 0 4) H).
  - assert (H : ({["Arya" := Data.mk "Person" 0.7 {["S1"]}]}
                   : gmap string Data.t) !! "Arya"
                = Some (Data.mk "Person" 0.7 {["S1"]}))
      by apply lookup_singleton_eq.
    split; [exact H|].
    exact (proj2 (proj2 entity_table_bounds) _ "Arya" "Location" 0.65%Q
             "S2" _ H).
Defined.

(** ** Identity and merge policy of the aggregator *)

Lemma merged_score_max (sightings : list Sighting.t) (d : Data.t) :
  merged sightings = Some d ->
  (Data.score d ∈ Sighting.score <$> sightings)
  /\ (forall s, s ∈ sightings -> (Sighting.score s <= Data.score d)%Q).
Proof.
  destruct sightings as [|first rest]; [discriminate|].
  intros [= <-]. simpl. split.
  - apply (foldl_qmax_elem (Sighting.score first) (Sighting.score <$> rest)).
  - intros s Hs. apply elem_of_cons in Hs as [->|Hs].
    + apply foldl_qmax_ge_init.
    + apply foldl_qmax_ge. apply list_elem_of_fmap. eauto.
Qed.

Lemma merged_stories (sightings : list Sighting.t) (d : Data.t) :
  merged sightings = Some d ->
  Data.stories d = list_to_set (Sighting.story_title <$> sightings).
Proof.
  destruct sightings as [|first rest]; [discriminate|].
  intros [= <-]. reflexivity.
Qed.

Lemma merged_perm (l1 l2 : list Sighting.t) (d1 : Data.t) :
  l1 ≡ₚ l2 ->
  merged l1 = Some d1 ->
  exists d2,
    merged l2 = Some d2
    /\ (Data.score d2 == Data.score d1)%Q
    /\ Data.stories d2 = Data.stories d1.
Proof.
  intros Hperm Hd1.
  destruct (merged l2) as [d2|] eqn:Hd2.
  - exists d2. split; [reflexivity|].
    destruct (merged_score_max _ _ Hd1) as [Hin1 Hmax1].
    destruct (merged_score_max _ _ Hd2) as [Hin2 Hmax2].
    split.
    + apply list_elem_of_fmap in Hin1 as (s1 & E1 & Hs1).
      apply list_elem_of_fmap in Hin2 as (s2 & E2 & Hs2).
      apply Qle_antisym.
      * rewrite E2. apply Hmax1. rewrite Hperm. exact Hs2.
      * rewrite E1. apply Hmax2. rewrite <- Hperm. exact Hs1.
    + rewrite (merged_stories _ _ Hd1), (merged_stories _ _ Hd2).
      rewrite Hperm. reflexivity.
  - exfalso. destruct l2; [|discriminate].
    apply Permutation_nil_r in Hperm. subst l1. discriminate.
Qed.

(** The table of a run is the sorted record list of the aggregation of
    its accepted spans. *)
Lemma run_ner_process_accepted
    (ner_pipeline : string -> result (list Entity.t)) (rows : list Row.t) :
  run_ner_process ner_pipeline rows
  = final_output (aggregate_all ∅ (accepted_spans ner_pipeline rows)).
Proof. unfold run_ner_process. rewrite process_rows_accepted. reflexivity. Qed.

Lemma record_is_merge (sightings : list Sighting.t) (r : Rec.t) :
  r ∈ final_output (aggregate_all ∅ sightings) ->
  exists d,
    merged (sightings_of (Rec.name r) sightings) = Some d
    /\ r = to_record (Rec.name r, d).
Proof.
  intros Hr. apply elem_of_final_output in Hr as (k & d & Hkd & ->).
  rewrite aggregate_all_lookup in Hkd. simpl. eauto.
Qed.

Lemma same_record_iff_same_name (sightings : list Sighting.t)
    (s1 s2 : Sighting.t) :
  s1 ∈ sightings -> s2 ∈ sightings ->
  (exists r,
      r ∈ final_output (aggregate_all ∅ sightings)
      /\ s1 ∈ sightings_of (Rec.name r) sightings
      /\ s2 ∈ sightings_of (Rec.name r) sightings)
  <-> Sighting.clean_word s1 = Sighting.clean_word s2.
Proof.
  intros Hs1 Hs2. split.
  - intros (r & _ & H1 & H2).
    apply sightings_of_elem in H1 as [_ H1].
    apply sightings_of_elem in H2 as [_ H2]. congruence.
  - intros Heq.
    assert (Hname : Sighting.clean_word s1
                      ∈ Rec.name <$> final_output (aggregate_all ∅ sightings)).
    { apply name_in_final_output, list_elem_of_fmap. eauto. }
    apply list_elem_of_fmap in Hname as (r & Hr & Hin).
    exists r. split; [exact Hin|].
    split; apply sightings_of_elem; split; congruence.
Qed.

(** C1, as stated, fails: two spans whose names are equal once lowercased
    and trimmed stay two entries of the table. *)
Lemma two_spellings_two_entities :
  run_ner_process two_spellings_pipeline two_spellings_rows
  = [ Rec.mk "Arya" "Person" 0.9 ["S1"]; Rec.mk "arya" "Person" 0.8 ["S1"] ]
  /\ spec_normalize "Arya" = spec_normalize "arya".
Proof. split; vm_compute; reflexivity. Qed.

(** C1 (amended). The identity of an entity is its cleaned name, compared
    exactly (case matters). The table of a run is the aggregation of the
    spans that passed the filters; no two records of a table have the same
    name; the names of the table are the cleaned names of the spans; each
    record is the merge of the spans with exactly its name; and two spans
    are merged into the same record if and only if their cleaned names are
    equal. *)
Theorem entity_identity_is_clean_name :
  (forall ner_pipeline rows,
      NoDup (Rec.name <$> run_ner_process ner_pipeline rows)
      /\ run_ner_process ner_pipeline rows
         = final_output
             (aggregate_all ∅ (accepted_spans ner_pipeline rows)))
  /\ (forall sightings : list Sighting.t,
         NoDup (Rec.name <$> final_output (aggregate_all ∅ sightings))
         /\ (forall k,
                k ∈ Rec.name <$> final_output (aggregate_all ∅ sightings)
                <-> k ∈ Sighting.clean_word <$> sightings)
         /\ (forall r,
                r ∈ final_output (aggregate_all ∅ sightings) ->
                exists d,
                  merged (sightings_of (Rec.name r) sightings) = Some d
                  /\ r = to_record (Rec.name r, d))
         /\ (forall s1 s2,
                s1 ∈ sightings -> s2 ∈ sightings ->
                (exists r,
                    r ∈ final_output (aggregate_all ∅ sightings)
                    /\ s1 ∈ sightings_of (Rec.name r) sightings
                    /\ s2 ∈ sightings_of (Rec.name r) sightings)
                <-> Sighting.clean_word s1 = Sighting.clean_word s2)).
Proof.
  split.
  - intros ner_pipeline rows. split.
    + apply final_output_NoDup.
    + apply run_ner_process_accepted.
  - intros sightings.
    split; [apply final_output_NoDup|].
    split; [apply name_in_final_output|].
    split; [apply record_is_merge|].
    apply same_record_iff_same_name.
Qed.

Lemma entity_identity_is_clean_name_witness :
  (Sighting.mk "Arya" "Person" 0.7 "S1" ∈ two_spellings_sightings
   /\ Sighting.mk "arya" "Location" 0.9 "S2" ∈ two_spellings_sightings)
  /\ ((exists r,
          r ∈ final_output (aggregate_all ∅ two_spellings_sightings)
          /\ Sighting.mk "Arya" "Person" 0.7 "S1"
               ∈ sightings_of (Rec.name r) two_spellings_sightings
          /\ Sighting.mk "arya" "Location" 0.9 "S2"
               ∈ sightings_of (Rec.name r) two_spellings_sightings)
      <-> "Arya" = "arya").
Proof.
  assert (H1 : Sighting.mk "Arya" "Person" 0.7 "S1" ∈ two_spellings_sightings)
    by apply list_elem_of_here.
  assert (H2 : Sighting.mk "arya" "Location" 0.9 "S2"
                 ∈ two_spellings_sightings)
    by apply list_elem_of_further, list_elem_of_here.
  split; [split; [exact H1|exact H2]|].
  exact (proj2 (proj2 (proj2 (proj2 entity_identity_is_clean_name
                                 two_spellings_sightings)))
           _ _ H1 H2).
Defined.

(** C5, as stated, fails: two sightings with the same lowercased, trimmed
    name are kept apart, so the entry of the later one carries the later
    label, and no entry holds the larger confidence together with both
    titles. *)
Lemma two_spellings_not_merged :
  spec_normalize "Arya" = spec_normalize "arya"
  /\ final_output (aggregate_all ∅ two_spellings_sightings)
     = [ Rec.mk "Arya" "Person" 0.7 ["S1"];
         Rec.mk "arya" "Location" 0.9 ["S2"] ].
Proof. split; vm_compute; reflexivity. Qed.

(** C5 (amended). Merge policy for the sightings of one cleaned name,
    compared exactly: whatever other sightings lie between them, the stored
    label is the label of the first sighting of that name, the stored
    confidence is one of their confidences and is at least each of them (the
    maximum), and the stored set of source documents is the set of all their
    titles. Presenting the sightings in another order gives the same maximum
    and the same set of titles. *)
Theorem merge_policy (sightings : list Sighting.t) (k : string)
    (first : Sighting.t) (rest : list Sighting.t) :
  sightings_of k sightings = first :: rest ->
  exists d,
    aggregate_all ∅ sightings !! k = Some d
    /\ Data.label d = Sighting.label first
    /\ (Data.score d ∈ Sighting.score <$> first :: rest)
    /\ (forall s, s ∈ first :: rest -> (Sighting.score s <= Data.score d)%Q)
    /\ Data.stories d = list_to_set (Sighting.story_title <$> first :: rest)
    /\ (forall sightings',
           sightings' ≡ₚ sightings ->
           exists d',
             aggregate_all ∅ sightings' !! k = Some d'
             /\ (Data.score d' == Data.score d)%Q
             /\ Data.stories d' = Data.stories d).
Proof.
  intros Hk.
  assert (Hd : aggregate_all ∅ sightings !! k = merged (first :: rest))
    by (rewrite aggregate_all_lookup, Hk; reflexivity).
  destruct (merged (first :: rest)) as [d|] eqn:Hm; [|discriminate].
  exists d. split; [exact Hd|].
  split; [injection Hm as <-; reflexivity|].
  destruct (merged_score_max _ _ Hm) as [Hin Hmax].
  split; [exact Hin|]. split; [exact Hmax|].
  split; [exact (merged_stories _ _ Hm)|].
  intros sightings' Hperm. rewrite aggregate_all_lookup.
  apply (merged_perm (first :: rest)); [|exact Hm].
  rewrite <- Hk. unfold sightings_of. rewrite Hperm. reflexivity.
Qed.

Lemma merge_policy_witness :
  sightings_of "Arya" three_sightings = three_sightings
  /\ exists d,
       aggregate_all ∅ three_sightings !! "Arya" = Some d
       /\ Data.label d = "Person"
       /\ (Data.score d ∈ [0.7; 0.9; 0.8]%Q)
       /\ (forall s, s ∈ three_sightings ->
             (Sighting.score s <= Data.score d)%Q)
       /\ Data.stories d = list_to_set ["S2"; "S1"; "S2"]
       /\ (forall sightings',
              sightings' ≡ₚ three_sightings ->
              exists d',
                aggregate_all ∅ sightings' !! "Arya" = Some d'
                /\ (Data.score d' == Data.score d)%Q
                /\ Data.stories d' = Data.stories d).
Proof.
  assert (H : sightings_of "Arya" three_sightings = three_sightings)
    by reflexivity.
  split; [exact H|].
  exact (merge_policy three_sightings "Arya" _ _ H).
Defined.

Example three_sightings_table :
  final_output (aggregate_all ∅ three_sightings)
  = [ Rec.mk "Arya" "Person" 0.9 ["S1"; "S2"] ].
Proof. vm_compute. reflexivity. Qed.

(** ** The evaluation harness *)

Lemma truediv_inject_pos (a : Q) (z : Z) :
  0 < z -> truediv a (inject_Z z) = Ok (a / inject_Z z)%Q.
Proof.
  intros Hz. unfold truediv.
  destruct (Qeq_bool (inject_Z z) 0) eqn:E; [|reflexivity].
  apply Qeq_bool_eq in E. unfold Qeq in E. simpl in E. lia.
Qed.

Lemma truediv_pos (a b : Q) :
  Qltb 0 b = true -> truediv a b = Ok (a / b)%Q.
Proof.
  intros Hb. unfold truediv.
  destruct (Qeq_bool b 0) eqn:E; [|reflexivity].
  apply Qeq_bool_eq in E. apply Qltb_lt in Hb.
  rewrite E in Hb. destruct (Qlt_irrefl _ Hb).
Qed.

(** The guarded percentage [(count / denominator) * 100 if denominator > 0
    else 0] always has a value. *)
Lemma percentage_ok (count denominator : Z) :
  exists p,
    (if 0 <? denominator
     then let* r := truediv (inject_Z count) (inject_Z denominator) in
          Ok (r * 100)%Q
     else Ok 0%Q) = Ok p
    /\ (0 < denominator ->
        (p == inject_Z count / inject_Z denominator * 100)%Q)
    /\ (denominator <= 0 -> p = 0%Q).
Proof.
  destruct (Z.ltb_spec 0 denominator) as [Hpos|Hzero].
  - rewrite truediv_inject_pos by exact Hpos. simpl.
    eexists. split; [reflexivity|]. split; [reflexivity|lia].
  - exists 0%Q. split; [reflexivity|]. split; [lia|reflexivity].
Qed.

(** The guarded harmonic mean always has a value. *)
Lemma f1_ok (strict_precision recall : Q) :
  exists f1,
    (if Qltb 0 (strict_precision + recall)
     then truediv (2 * (strict_precision * recall))%Q
            (strict_precision + recall)%Q
     else Ok 0%Q) = Ok f1
    /\ ((0 < strict_precision + recall)%Q ->
        (f1 == 2 * (strict_precision * recall)
               / (strict_precision + recall))%Q)
    /\ ((recall == 0)%Q -> (strict_precision == 0)%Q -> (f1 == 0)%Q).
Proof.
  destruct (Qltb 0 (strict_precision + recall)) eqn:E.
  - rewrite truediv_pos by exact E.
    eexists. split; [reflexivity|]. split; [reflexivity|].
    intros Hr Hp. apply Qltb_lt in E. rewrite Hr, Hp in E.
    discriminate E.
  - exists 0%Q. split; [reflexivity|]. split; [|reflexivity].
    intros Hpos. apply Qltb_lt in Hpos. congruence.
Qed.

Lemma count_item_ok (model_predictions : gmap string Rec.t)
    (c : Counts.t) (entry : string * Gold.t) :
  counts_ok c -> counts_ok (count_item model_predictions c entry).
Proof.
  intros (Htp & Hfn & Herr & Hstrict). destruct entry as [name_lower item].
  unfold count_item, counts_ok.
  destruct (model_predictions !! name_lower) as [prediction|];
    [destruct (String.eqb _ _)|]; simpl; lia.
Qed.

Lemma foldl_count_item_ok (model_predictions : gmap string Rec.t)
    (gold_truth : list (string * Gold.t)) (c : Counts.t) :
  counts_ok c ->
  counts_ok (foldl (count_item model_predictions) c gold_truth).
Proof.
  revert c. induction gold_truth as [|entry rest IH]; intros c Hc; simpl.
  - exact Hc.
  - apply IH, count_item_ok, Hc.
Qed.

(** The harness always produces a report; its fields are the counters of
    the coverage loop and the three guarded ratios. *)
Lemma calculate_metrics_report (json_results : list Rec.t)
    (gold : list Gold.t) :
  exists r,
    calculate_metrics json_results gold = Ok r
    /\ Report.gold_standard_size r = Z.of_nat (length gold)
    /\ Report.total_found_in_gold_set r
       = Report.strict_tp r + Report.strict_fp_label_error r
    /\ Report.strict_tp r = Report.tp r
    /\ 0 <= Report.tp r
    /\ 0 <= Report.strict_fp_label_error r
    /\ Report.label_accuracy r = Report.strict_precision r
    /\ (0 < Report.gold_standard_size r ->
        (Report.recall r
         == inject_Z (Report.tp r) / inject_Z (Report.gold_standard_size r)
            * 100)%Q)
    /\ (Report.gold_standard_size r = 0 -> Report.recall r = 0%Q)
    /\ (0 < Report.total_found_in_gold_set r ->
        (Report.strict_precision r
         == inject_Z (Report.strict_tp r)
            / inject_Z (Report.total_found_in_gold_set r) * 100)%Q)
    /\ (Report.total_found_in_gold_set r = 0 ->
        Report.strict_precision r = 0%Q)
    /\ ((0 < Report.strict_precision r + Report.recall r)%Q ->
        (Report.f1 r
         == 2 * (Report.strict_precision r * Report.recall r)
            / (Report.strict_precision r + Report.recall r))%Q)
    /\ ((Report.recall r == 0)%Q -> (Report.strict_precision r == 0)%Q ->
        (Report.f1 r == 0)%Q).
Proof.
  unfold calculate_metrics.
  set (mp := model_predictions_of json_results).
  set (c := foldl (count_item mp) (Counts.mk 0 0 0 0 []) (gold_truth_of gold)).
  assert (Hc : counts_ok c).
  { apply foldl_count_item_ok. unfold counts_ok. simpl. lia. }
  destruct Hc as (Htp & Hfn & Herr & Hstrict).
  destruct (percentage_ok (Counts.tp c) (Z.of_nat (length gold)))
    as (recall & -> & Hrecall & Hrecall0).
  destruct (percentage_ok (Counts.strict_tp c)
              (Counts.strict_tp c + Counts.strict_fp_label_error c))
    as (sp & Hsp_eq & Hsp & Hsp0).
  cbn [bind]. rewrite Hsp_eq. cbn [bind].
  destruct (f1_ok sp recall) as (f1 & -> & Hf1 & Hf10).
  cbn [bind]. eexists. split; [reflexivity|]. cbn.
  split; [reflexivity|]. split; [reflexivity|]. split; [exact Hstrict|].
  split; [exact Htp|]. split; [exact Herr|]. split; [reflexivity|].
  split; [exact Hrecall|]. split; [intros H0; apply Hrecall0; lia|].
  split; [exact Hsp|]. split; [intros H0; apply Hsp0; lia|].
  split; [exact Hf1|exact Hf10].
Qed.

(** C4. For every entity table and every gold set the harness returns a
    report, so no division raises. Recall is [tp / size * 100] when the gold
    set is not empty and 0 when it is empty; strict precision is
    [strict_tp / total * 100] when [total_found_in_gold_set] is positive and
    0 when it is 0; f1 is 0 when recall and strict precision are 0. *)
Theorem metrics_never_divide_by_zero (json_results : list Rec.t)
    (gold : list Gold.t) :
  exists r,
    calculate_metrics json_results gold = Ok r
    /\ Report.gold_standard_size r = Z.of_nat (length gold)
    /\ Report.total_found_in_gold_set r
       = Report.strict_tp r + Report.strict_fp_label_error r
    /\ 0 <= Report.total_found_in_gold_set r
    /\ (0 < Report.gold_standard_size r ->
        (Report.recall r
         == inject_Z (Report.tp r) / inject_Z (Report.gold_standard_size r)
            * 100)%Q)
    /\ (Report.gold_standard_size r = 0 -> Report.recall r = 0%Q)
    /\ (0 < Report.total_found_in_gold_set r ->
        (Report.strict_precision r
         == inject_Z (Report.strict_tp r)
            / inject_Z (Report.total_found_in_gold_set r) * 100)%Q)
    /\ (Report.total_found_in_gold_set r = 0 ->
        Report.strict_precision r = 0%Q)
    /\ ((Report.recall r == 0)%Q -> (Report.strict_precision r == 0)%Q ->
        (Report.f1 r == 0)%Q).
Proof.
  destruct (calculate_metrics_report json_results gold)
    as (r & Hr & Hsize & Htotal & Hstrict & Htp & Herr & _ & Hrecall
        & Hrecall0 & Hsp & Hsp0 & _ & Hf10).
  exists r. repeat (split; [assumption|]).
  split; [lia|]. repeat (split; [assumption|]). exact Hf10.
Qed.

Lemma metrics_never_divide_by_zero_witness :
  exists r,
    calculate_metrics [] [] = Ok r
    /\ Report.gold_standard_size r = 0
    /\ Report.total_found_in_gold_set r = 0
    /\ Report.recall r = 0%Q
    /\ Report.strict_precision r = 0%Q
    /\ (Report.f1 r == 0)%Q.
Proof.
  destruct (metrics_never_divide_by_zero [] [])
    as (r & Hr & Hsize & Htotal & Hnonneg & Hrecall & Hrecall0 & Hsp & Hsp0
        & Hf1).
  exists r.
  assert (Ht : Report.total_found_in_gold_set r = 0).
  { vm_compute in Hr. injection Hr as <-. reflexivity. }
  split; [exact Hr|]. split; [exact Hsize|]. split; [exact Ht|].
  split; [exact (Hrecall0 Hsize)|]. split; [exact (Hsp0 Ht)|].
  apply Hf1.
  - rewrite (Hrecall0 Hsize). reflexivity.
  - rewrite (Hsp0 Ht). reflexivity.
Defined.

(** With no prediction at all, every entry of the module's reference list
    is a miss. *)
Example nothing_found :
  exists r,
    calculate_metrics [] GOLD_STANDARD = Ok r
    /\ Report.gold_standard_size r = 50
    /\ Report.fn r = 50
    /\ Report.tp r = 0
    /\ (Report.recall r == 0)%Q
    /\ Report.strict_precision r = 0%Q
    /\ Report.f1 r = 0%Q
    /\ Report.mismatches r = [].
Proof.
  eexists. split; [vm_compute; reflexivity|].
  cbn. repeat split; reflexivity.
Qed.

(** C9. For every entity table and gold set the harness returns a report
    whose label accuracy is its strict precision. *)
Theorem label_accuracy_is_strict_precision (json_results : list Rec.t)
    (gold : list Gold.t) :
  exists r,
    calculate_metrics json_results gold = Ok r
    /\ Report.label_accuracy r = Report.strict_precision r.
Proof.
  destruct (calculate_metrics_report json_results gold)
    as (r & Hr & _ & _ & _ & _ & _ & Hacc & _).
  exists r. split; assumption.
Qed.

(** C2. On the scenario (gold: Prabu Basukesti a Person, Medang Kamulan a
    Location; predictions: both names in lower case, both labelled Person)
    the harness counts one true positive and one label error, reports
    recall, strict precision and f1 of 50, and prints exactly one mismatch
    line, naming Medang Kamulan with gold label Location and model label
    Person. The counter it prints as "Completely Missed" is 1, not 0: the
    mislabelled entity is counted there although it was found. *)
Theorem scenario_report (c1 c2 : Q) (st1 st2 : list string) :
  exists r,
    calculate_metrics (scenario_predictions c1 c2 st1 st2) scenario_gold
      = Ok r
    /\ Report.tp r = 1
    /\ Report.strict_tp r = 1
    /\ Report.strict_fp_label_error r = 1
    /\ Report.fn r = 1
    /\ (Report.recall r == 50)%Q
    /\ (Report.strict_precision r == 50)%Q
    /\ (Report.f1 r == 50)%Q
    /\ Report.mismatches r
       = [ Mismatch.mk "Medang Kamulan" "Location" "Person" ]
    /\ Report.label_mismatch_list r = [ "medang kamulan" ].
Proof.
  eexists. split; [vm_compute; reflexivity|].
  cbn. repeat split; reflexivity.
Qed.


(** * Further properties *)

(** ** Span repair: errors, prefix, boundary *)

Lemma substring_app (s : string) (n m1 m2 : nat) :
  substring n (m1 + m2) s
  = (substring n m1 s ++ substring (n + m1) m2 s)%string.
Proof.
  revert n m1. induction s as [|a s IH]; intros n m1.
  - destruct n, m1, m2; reflexivity.
  - destruct n as [|n].
    + destruct m1 as [|m1]; [reflexivity|].
      change (String a (substring 0 (m1 + m2) s)
              = String a (substring 0 m1 s ++ substring m1 m2 s)%string).
      f_equal. apply (IH 0%nat m1).
    + simpl. apply IH.
Qed.

Lemma append_cons (a : ascii) (s t : string) :
  (String a s ++ t)%string = String a (s ++ t)%string.
Proof. reflexivity. Qed.

Lemma append_empty_r (s : string) : (s ++ "")%string = s.
Proof.
  induction s as [|a s IH]; [reflexivity|].
  rewrite append_cons. f_equal. exact IH.
Qed.

Lemma slice_app (s : string) (a b c : Z) :
  0 <= a <= b -> b <= c <= Py.len s ->
  Py.slice s a c = (Py.slice s a b ++ Py.slice s b c)%string.
Proof.
  intros Hab Hbc. unfold Py.slice, Py.slice_bound.
  destruct (Z.ltb_spec a 0); [lia|].
  destruct (Z.ltb_spec b 0); [lia|].
  destruct (Z.ltb_spec c 0); [lia|].
  rewrite !Z.min_l by lia.
  replace (Z.to_nat (c - a))
    with (Z.to_nat (b - a) + Z.to_nat (c - b))%nat by lia.
  rewrite substring_app. f_equal. f_equal. lia.
Qed.

Lemma all_chars_get (p : ascii -> bool) (s : string) :
  (forall j c, String.get j s = Some c -> p c = true) ->
  all_chars p s = true.
Proof.
  induction s as [|a s IH]; intros H; simpl; [reflexivity|].
  rewrite (H 0%nat a eq_refl). simpl.
  apply IH. intros j c Hj. exact (H (S j) c Hj).
Qed.

Lemma index_get (s : string) (i : Z) (c : ascii) :
  0 <= i -> Py.index s i = Ok c -> String.get (Z.to_nat i) s = Some c.
Proof.
  intros Hi. unfold Py.index.
  destruct (Z.ltb_spec i 0); [lia|].
  destruct ((i <? 0) || (Py.len s <=? i)); [discriminate|].
  destruct (String.get (Z.to_nat i) s); [|discriminate].
  intros [= ->]. reflexivity.
Qed.

Lemma slice_all_chars (p : ascii -> bool) (s : string) (a b : Z) :
  0 <= a <= b -> b <= Py.len s ->
  (forall i, a <= i < b -> exists c, Py.index s i = Ok c /\ p c = true) ->
  all_chars p (Py.slice s a b) = true.
Proof.
  intros Hab Hb Hall. apply all_chars_get. intros j c.
  unfold Py.slice, Py.slice_bound.
  destruct (Z.ltb_spec a 0); [lia|]. destruct (Z.ltb_spec b 0); [lia|].
  rewrite !Z.min_l by lia.
  destruct (Nat.lt_ge_cases j (Z.to_nat (b - a))) as [Hj|Hj].
  - rewrite substring_correct1 by exact Hj. intros Hget.
    destruct (Hall (Z.of_nat j + a)) as (c' & Hc' & Hp); [lia|].
    apply index_get in Hc'; [|lia].
    replace (Z.to_nat (Z.of_nat j + a)) with (j + Z.to_nat a)%nat in Hc'
      by lia.
    congruence.
  - rewrite substring_correct2 by exact Hj. discriminate.
Qed.

(** X1. Span repair raises exactly when the end offset lies below
    [-len(text)], and then with [IndexError] from the first read of the
    loop; for every other end offset, and every start, it returns a
    string. *)
Theorem expand_raises_iff (text : string) (start end_ : Z) :
  (expand_to_full_word text start end_ = Raise IndexError
   <-> end_ < - Py.len text)
  /\ ((exists w, expand_to_full_word text start end_ = Ok w)
      <-> - Py.len text <= end_).
Proof.
  destruct (expand_outcome text start end_)
    as [[Hlow Hraise]|[Hin [w Hw]]].
  - split; split; intros H; try assumption; try lia.
    destruct H as [w Hw]. congruence.
  - split; split; intros H; try assumption; try lia; eauto.
    congruence.
Qed.

(** X2. Repair only appends: for offsets [0 <= start <= end_ <= len(text)]
    the result is the reported slice [text[start:end_]] followed by
    alphanumeric characters only. *)
Theorem expand_appends_alnum (text : string) (start end_ : Z) :
  0 <= start <= end_ -> end_ <= Py.len text ->
  exists suffix,
    expand_to_full_word text start end_
    = Ok (Py.slice text start end_ ++ suffix)%string
    /\ all_chars Py.isalnum suffix = true.
Proof.
  intros Hstart Hend.
  destruct (Z.le_gt_cases (Py.len text) end_) as [Hat|Hin].
  - exists "". rewrite expand_at_text_end by lia.
    rewrite append_empty_r. split; reflexivity.
  - destruct (expand_inside_text text start end_)
      as (e & He & Hle & Hall & _); [lia|].
    exists (Py.slice text end_ e). split.
    + rewrite He. f_equal. apply slice_app; lia.
    + apply slice_all_chars; [lia|lia|exact Hall].
Qed.

Lemma expand_appends_alnum_witness :
  exists suffix,
    expand_to_full_word "Arya Basusara adalah" 5 8
    = Ok (Py.slice "Arya Basusara adalah" 5 8 ++ suffix)%string
    /\ all_chars Py.isalnum suffix = true.
Proof.
  apply (expand_appends_alnum "Arya Basusara adalah" 5 8).
  - lia.
  - vm_compute. discriminate.
Defined.

(** X3. A span that already ends at a word boundary is returned as it is:
    when the character at the end offset is not alphanumeric, the result is
    [text[start:end_]]. *)
Theorem expand_at_boundary (text : string) (start end_ : Z) (c : ascii) :
  Py.index text end_ = Ok c -> Py.isalnum c = false ->
  expand_to_full_word text start end_ = Ok (Py.slice text start end_).
Proof.
  intros Hc Halnum.
  destruct (Z.le_gt_cases (Py.len text) end_) as [Hat|Hin].
  { apply expand_at_text_end. exact Hat. }
  destruct (Z.lt_ge_cases end_ (- Py.len text)) as [Hlow|Hlow].
  { rewrite index_below_range in Hc by exact Hlow. discriminate. }
  destruct (expand_inside_text text start end_)
    as (e & He & Hle & Hall & _); [lia|].
  destruct (Z.eq_dec e end_) as [->|Hne]; [exact He|].
  destruct (Hall end_) as (c' & Hc' & Hc'alnum); [lia|].
  congruence.
Qed.

Lemma expand_at_boundary_witness :
  expand_to_full_word "Arya Basusara adalah" 0 13
  = Ok (Py.slice "Arya Basusara adalah" 0 13).
Proof.
  apply (expand_at_boundary "Arya Basusara adalah" 0 13 " ");
    reflexivity.
Defined.

(** ** The order of the output *)

Lemma ascii_compare_refl (a : ascii) : Ascii.compare a a = Eq.
Proof. unfold Ascii.compare. apply N.compare_refl. Qed.

Lemma ascii_compare_lt_trans (a b c : ascii) :
  Ascii.compare a b = Lt -> Ascii.compare b c = Lt -> Ascii.compare a c = Lt.
Proof.
  unfold Ascii.compare. rewrite !N.compare_lt_iff. apply N.lt_trans.
Qed.

Lemma string_compare_le_trans (a b c : string) :
  String.compare a b <> Gt -> String.compare b c <> Gt ->
  String.compare a c <> Gt.
Proof.
  revert b c. induction a as [|x a IH]; intros [|y b] [|z c]; simpl;
    try congruence.
  destruct (Ascii.compare x y) eqn:Exy;
    destruct (Ascii.compare y z) eqn:Eyz; try congruence.
  - apply Ascii.compare_eq_iff in Exy, Eyz. subst.
    rewrite ascii_compare_refl. apply IH.
  - apply Ascii.compare_eq_iff in Exy. subst. rewrite Eyz. congruence.
  - apply Ascii.compare_eq_iff in Eyz. subst. rewrite Exy. congruence.
  - rewrite (ascii_compare_lt_trans _ _ _ Exy Eyz). congruence.
Qed.

Lemma str_le_compare (a b : string) : str_le a b <-> String.compare a b <> Gt.
Proof.
  unfold str_le, String.leb.
  destruct (String.compare a b); simpl; split; intros H; try congruence;
    try exact I; try contradiction.
Qed.

Lemma str_le_trans (a b c : string) : str_le a b -> str_le b c -> str_le a c.
Proof. rewrite !str_le_compare. apply string_compare_le_trans. Qed.

Lemma str_le_total (a b : string) : str_le a b \/ str_le b a.
Proof.
  unfold str_le. destruct (String.leb_total a b) as [H|H]; rewrite H; auto.
Qed.

Lemma str_le_neq_lt (a b : string) : str_le a b -> a <> b -> str_lt a b.
Proof.
  unfold str_le, str_lt, String.leb, String.ltb.
  destruct (String.compare a b) eqn:E; simpl; auto.
  apply String.compare_eq_iff in E. congruence.
Qed.

(** A list sorted by a key without a repeated key ascends strictly. *)
Lemma sorted_distinct_strict {A : Type} (key : A -> string) (l : list A) :
  StronglySorted (fun a b => str_le (key a) (key b)) l ->
  NoDup (key <$> l) ->
  StronglySorted (fun a b => str_lt (key a) (key b)) l.
Proof.
  induction 1 as [|x l Hsorted IH Hall]; intros Hnodup; constructor.
  - apply IH. apply NoDup_cons in Hnodup as [_ H]. exact H.
  - apply NoDup_cons in Hnodup as [Hx _].
    rewrite List.Forall_forall in *. intros y Hy.
    apply str_le_neq_lt; [apply Hall, Hy|].
    intros Heq. apply Hx. rewrite Heq.
    apply list_elem_of_fmap_2, list_elem_of_In, Hy.
Qed.

Lemma merge_sort_str_le_sorted {A : Type} (key : A -> string)
    `{!RelDecision (fun a b : A => str_le (key a) (key b))} (l : list A) :
  StronglySorted (fun a b => str_le (key a) (key b))
    (merge_sort (fun a b => str_le (key a) (key b)) l).
Proof.
  apply @StronglySorted_merge_sort.
  - intros a b c. apply str_le_trans.
  - intros a b. apply str_le_total.
Qed.

Lemma final_output_strictly_sorted (ue : gmap string Data.t) :
  StronglySorted name_lt (final_output ue).
Proof.
  apply (sorted_distinct_strict Rec.name).
  - apply (merge_sort_str_le_sorted Rec.name).
  - apply final_output_NoDup.
Qed.

Lemma sorted_stories_strictly_sorted (stories : gset string) :
  StronglySorted str_lt (sorted_stories stories).
Proof.
  apply (sorted_distinct_strict (fun t => t)).
  - apply (merge_sort_str_le_sorted (fun t => t)).
  - rewrite list_fmap_id. unfold sorted_stories.
    rewrite merge_sort_Permutation. apply NoDup_elements.
Qed.

(** X4. The serialized table is in strictly ascending order of names, and
    the story list of each record is in strictly ascending order; so
    neither holds a duplicate. *)
Theorem run_output_sorted
    (ner_pipeline : string -> result (list Entity.t)) (rows : list Row.t) :
  StronglySorted name_lt (run_ner_process ner_pipeline rows)
  /\ Forall (fun r => StronglySorted str_lt (Rec.stories r))
       (run_ner_process ner_pipeline rows).
Proof.
  split; [apply final_output_strictly_sorted|].
  apply List.Forall_forall. intros r Hr.
  apply list_elem_of_In, elem_of_final_output in Hr as (k & d & _ & ->).
  apply sorted_stories_strictly_sorted.
Qed.

(** ** Where the records come from *)

Lemma accepted_span_origin (text story_title : string) (entity : Entity.t)
    (s : Sighting.t) :
  accepted_span text story_title entity = Ok (Some s) ->
  exists raw,
    (CONFIDENCE_THRESHOLD <= Entity.score entity)%Q
    /\ expand_to_full_word text (Entity.start entity) (Entity.end_ entity)
       = Ok raw
    /\ s = Sighting.mk (clean_entity_name raw)
             (label_of_group (Entity.entity_group entity))
             (Entity.score entity) story_title.
Proof.
  unfold accepted_span.
  destruct (Qltb (Entity.score entity) CONFIDENCE_THRESHOLD) eqn:Hscore;
    [discriminate|].
  destruct (expand_to_full_word text (Entity.start entity)
              (Entity.end_ entity)) as [raw|e]; [|discriminate].
  cbn [bind].
  destruct (_ <? 3); [discriminate|].
  destruct (bool_decide _); [discriminate|].
  destruct (negb _); [|discriminate].
  intros [= <-]. exists raw. split; [apply Qltb_ge, Hscore|]. auto.
Qed.

Lemma accepted_of_results_origin (text story_title : string)
    (results : list Entity.t) (s : Sighting.t) :
  s ∈ accepted_of_results text story_title results ->
  exists entity,
    entity ∈ results /\ accepted_span text story_title entity = Ok (Some s).
Proof.
  induction results as [|entity rest IH]; simpl; [intros H; inversion H|].
  destruct (accepted_span text story_title entity) as [[s'|]|e] eqn:Hs.
  - intros [->|H]%elem_of_cons.
    + exists entity. split; [apply list_elem_of_here|exact Hs].
    + destruct (IH H) as (e' & He' & Hs'). exists e'.
      split; [apply list_elem_of_further, He'|exact Hs'].
  - intros H. destruct (IH H) as (e' & He' & Hs'). exists e'.
    split; [apply list_elem_of_further, He'|exact Hs'].
  - intros H. inversion H.
Qed.

Lemma accepted_spans_source
    (ner_pipeline : string -> result (list Entity.t)) (rows : list Row.t)
    (s : Sighting.t) :
  s ∈ accepted_spans ner_pipeline rows -> span_source ner_pipeline rows s.
Proof.
  unfold accepted_spans. rewrite list_elem_of_In, in_flat_map.
  intros (row & Hrow & Hs). apply list_elem_of_In in Hrow, Hs.
  revert Hs. unfold accepted_of_row.
  destruct (Z.ltb_spec (Py.len (Row.text row)) 5) as [Hshort|Hlong];
    [intros H; inversion H|].
  destruct (ner_pipeline (Row.text row)) as [results|e] eqn:Hcall;
    [|intros H; inversion H].
  intros Hs. apply accepted_of_results_origin in Hs as (entity & He & Hs).
  apply accepted_span_origin in Hs as (raw & Hscore & Hraw & ->).
  exists row, results, entity, raw. auto 10.
Qed.

Lemma sorted_stories_elem (stories : gset string) (t : string) :
  t ∈ sorted_stories stories <-> t ∈ stories.
Proof.
  unfold sorted_stories. rewrite merge_sort_Permutation.
  apply elem_of_elements.
Qed.

(** X5. Every record of a run comes from reported spans: its name is the
    cleaned repaired text of a span that a row's model call returned with a
    score at or above the threshold, its label is the label of that span's
    group, the name has at least 3 characters and is not in the blocklist,
    and its confidence is the score of a reported span with the same
    cleaned name. *)
Theorem record_origin
    (ner_pipeline : string -> result (list Entity.t)) (rows : list Row.t)
    (r : Rec.t) :
  r ∈ run_ner_process ner_pipeline rows ->
  (exists s,
      span_source ner_pipeline rows s
      /\ Rec.name r = Sighting.clean_word s
      /\ Rec.label r = Sighting.label s)
  /\ (exists s,
         span_source ner_pipeline rows s
         /\ Rec.name r = Sighting.clean_word s
         /\ Rec.confidence r = Sighting.score s)
  /\ 3 <= Py.len (Rec.name r)
  /\ (Rec.name r ∉ BLOCKLIST).
Proof.
  rewrite run_ner_process_accepted. intros Hr.
  apply record_is_merge in Hr as (d & Hd & Hr).
  set (spans := accepted_spans ner_pipeline rows) in *.
  destruct (sightings_of (Rec.name r) spans) as [|first rest] eqn:Hk;
    [discriminate|].
  assert (Hsub : forall s, s ∈ first :: rest ->
                   s ∈ spans /\ Sighting.clean_word s = Rec.name r).
  { intros s Hs. apply sightings_of_elem. rewrite Hk. exact Hs. }
  destruct (Hsub first) as [Hfirst Hname]; [apply list_elem_of_here|].
  destruct (merged_score_max _ _ Hd) as [Hin _].
  apply list_elem_of_fmap in Hin as (best & Hbest & Hin).
  destruct (Hsub best Hin) as [Hbest_in Hbest_name].
  injection Hd as Hd. rewrite Hr. simpl. split; [|split; [|split]].
  - exists first. split; [apply accepted_spans_source, Hfirst|].
    split; [congruence|]. rewrite <- Hd. reflexivity.
  - exists best. split; [apply accepted_spans_source, Hbest_in|].
    split; [congruence|]. exact Hbest.
  - pose proof (accepted_spans_accepted ner_pipeline rows) as Hacc.
    rewrite Forall_forall in Hacc.
    destruct (Hacc first Hfirst) as (_ & Hlen & _). rewrite <- Hname.
    exact Hlen.
  - pose proof (accepted_spans_accepted ner_pipeline rows) as Hacc.
    rewrite Forall_forall in Hacc.
    destruct (Hacc first Hfirst) as (_ & _ & Hblock & _). rewrite <- Hname.
    exact Hblock.
Qed.

(** X6. Provenance of the story lists: the story list of every record is
    not empty, and a title is in it exactly when a reported span with the
    record's cleaned name was accepted in a row of that title. *)
Theorem record_stories
    (ner_pipeline : string -> result (list Entity.t)) (rows : list Row.t)
    (r : Rec.t) :
  r ∈ run_ner_process ner_pipeline rows ->
  Rec.stories r <> []
  /\ (forall t,
         t ∈ Rec.stories r
         <-> exists s,
               s ∈ accepted_spans ner_pipeline rows
               /\ Sighting.clean_word s = Rec.name r
               /\ Sighting.story_title s = t)
  /\ (forall t,
         t ∈ Rec.stories r ->
         exists row, row ∈ rows /\ Row.story_title row = t).
Proof.
  rewrite run_ner_process_accepted. intros Hr.
  apply record_is_merge in Hr as (d & Hd & Hr).
  set (spans := accepted_spans ner_pipeline rows) in *.
  assert (Hiff : forall t,
             t ∈ Rec.stories r
             <-> exists s,
                   s ∈ spans /\ Sighting.clean_word s = Rec.name r
                   /\ Sighting.story_title s = t).
  { intros t. rewrite Hr at 1. simpl.
    rewrite sorted_stories_elem, (merged_stories _ _ Hd).
    rewrite elem_of_list_to_set, list_elem_of_fmap. split.
    - intros (s & -> & Hs). apply sightings_of_elem in Hs as [Hs Hname].
      eauto.
    - intros (s & Hs & Hname & <-). exists s. split; [reflexivity|].
      apply sightings_of_elem. auto. }
  split; [|split; [exact Hiff|]].
  - destruct (sightings_of (Rec.name r) spans) as [|first rest] eqn:Hk;
      [discriminate|].
    assert (Hfirst : first ∈ spans /\ Sighting.clean_word first = Rec.name r).
    { apply sightings_of_elem. rewrite Hk. apply list_elem_of_here. }
    assert (Ht : Sighting.story_title first ∈ Rec.stories r).
    { apply Hiff. exists first. tauto. }
    intros Hnil. rewrite Hnil in Ht. inversion Ht.
  - intros t Ht. apply Hiff in Ht as (s & Hs & _ & <-).
    apply accepted_spans_source in Hs
      as (row & results & entity & raw & Hrow & _ & _ & _ & _ & _ & ->).
    exists row. auto.
Qed.

Lemma two_spellings_member :
  Rec.mk "Arya" "Person" 0.9 ["S1"]
    ∈ run_ner_process two_spellings_pipeline two_spellings_rows.
Proof.
  replace (run_ner_process two_spellings_pipeline two_spellings_rows)
    with [ Rec.mk "Arya" "Person" 0.9 ["S1"];
           Rec.mk "arya" "Person" 0.8 ["S1"] ]
    by (vm_compute; reflexivity).
  apply list_elem_of_here.
Qed.

Lemma record_origin_witness :
  (exists s,
      span_source two_spellings_pipeline two_spellings_rows s
      /\ "Arya" = Sighting.clean_word s
      /\ "Person" = Sighting.label s)
  /\ (exists s,
         span_source two_spellings_pipeline two_spellings_rows s
         /\ "Arya" = Sighting.clean_word s
         /\ 0.9%Q = Sighting.score s)
  /\ 3 <= Py.len "Arya"
  /\ ("Arya" ∉ BLOCKLIST).
Proof.
  exact (record_origin two_spellings_pipeline two_spellings_rows
           (Rec.mk "Arya" "Person" 0.9 ["S1"]) two_spellings_member).
Defined.

Lemma record_stories_witness :
  ["S1"] <> []
  /\ (forall t,
         t ∈ ["S1"]
         <-> exists s,
               s ∈ accepted_spans two_spellings_pipeline two_spellings_rows
               /\ Sighting.clean_word s = "Arya"
               /\ Sighting.story_title s = t)
  /\ (forall t,
         t ∈ ["S1"] ->
         exists row, row ∈ two_spellings_rows /\ Row.story_title row = t).
Proof.
  exact (record_stories two_spellings_pipeline two_spellings_rows
           (Rec.mk "Arya" "Person" 0.9 ["S1"]) two_spellings_member).
Defined.

(** ** Rows and spans that fail *)

Lemma accepted_spans_app
    (ner_pipeline : string -> result (list Entity.t))
    (rows1 rows2 : list Row.t) :
  accepted_spans ner_pipeline (rows1 ++ rows2)
  = (accepted_spans ner_pipeline rows1
     ++ accepted_spans ner_pipeline rows2)%list.
Proof. unfold accepted_spans. apply flat_map_app. Qed.

(** X7. A row that is skipped does not touch the run: when a row's text
    has fewer than 5 characters, or the model call for it raises, the
    output is the output of the run without that row, wherever the row
    stands. *)
Theorem skipped_row_is_absent
    (ner_pipeline : string -> result (list Entity.t))
    (before after : list Row.t) (row : Row.t) :
  Py.len (Row.text row) < 5
  \/ (exists e, ner_pipeline (Row.text row) = Raise e) ->
  run_ner_process ner_pipeline (before ++ row :: after)
  = run_ner_process ner_pipeline (before ++ after).
Proof.
  intros Hskip. rewrite !run_ner_process_accepted. f_equal. f_equal.
  rewrite !accepted_spans_app. f_equal.
  change (row :: after) with ([row] ++ after)%list.
  rewrite accepted_spans_app.
  replace (accepted_spans ner_pipeline [row]) with (@nil Sighting.t);
    [reflexivity|].
  unfold accepted_spans. simpl. rewrite app_nil_r.
  unfold accepted_of_row. destruct Hskip as [Hshort|[e He]].
  - destruct (Z.ltb_spec (Py.len (Row.text row)) 5); [reflexivity|lia].
  - rewrite He. destruct (_ <? 5); reflexivity.
Qed.

Lemma skipped_row_is_absent_witness :
  (Py.len "ab" < 5 \/ (exists e, two_spellings_pipeline "ab" = Raise e))
  /\ run_ner_process two_spellings_pipeline
       ([] ++ Row.mk "ab" "S0" :: two_spellings_rows)
     = run_ner_process two_spellings_pipeline ([] ++ two_spellings_rows).
Proof.
  assert (H : Py.len "ab" < 5
              \/ (exists e, two_spellings_pipeline "ab" = Raise e))
    by (left; reflexivity).
  split; [exact H|].
  exact (skipped_row_is_absent two_spellings_pipeline []
           two_spellings_rows (Row.mk "ab" "S0") H).
Defined.

Lemma process_entities_stops (text story_title : string)
    (ue : gmap string Data.t) (l1 l2 : list Entity.t) (entity : Entity.t)
    (x : exn) :
  accepted_span text story_title entity = Raise x ->
  process_entities text story_title ue (l1 ++ entity :: l2)
  = process_entities text story_title ue l1.
Proof.
  intros Hraise. revert ue. induction l1 as [|e l1 IH]; intros ue; simpl.
  - rewrite process_entity_accepted_span, Hraise. reflexivity.
  - destruct (process_entity text story_title ue e); [apply IH|reflexivity].
Qed.

(** X8. An exception inside a row ends that row only: when the repair of a
    span at or above the threshold raises (its end offset lies below
    [-len(text)]), the spans reported before it have been aggregated as
    usual and the spans after it are never looked at. *)
Theorem failing_span_ends_row (text story_title : string)
    (unique_entities : gmap string Data.t)
    (before after : list Entity.t) (entity : Entity.t) :
  (CONFIDENCE_THRESHOLD <= Entity.score entity)%Q ->
  Entity.end_ entity < - Py.len text ->
  process_entities text story_title unique_entities
    (before ++ entity :: after)
  = process_entities text story_title unique_entities before.
Proof.
  intros Hscore Hend.
  apply (process_entities_stops _ _ _ _ _ _ IndexError).
  unfold accepted_span. apply Qltb_ge in Hscore. rewrite Hscore.
  destruct (expand_outcome text (Entity.start entity) (Entity.end_ entity))
    as [[_ ->]|[Hge _]]; [reflexivity|lia].
Qed.

Lemma failing_span_ends_row_witness :
  process_entities "Arya dan arya" "S1" ∅
    ([Entity.mk "PER" 0.9 0 4]
     ++ Entity.mk "PER" 0.9 0 (-20) :: [Entity.mk "PER" 0.8 9 13])
  = process_entities "Arya dan arya" "S1" ∅ [Entity.mk "PER" 0.9 0 4].
Proof.
  apply (failing_span_ends_row "Arya dan arya" "S1" ∅
           [Entity.mk "PER" 0.9 0 4] [Entity.mk "PER" 0.8 9 13]
           (Entity.mk "PER" 0.9 0 (-20))).
  - vm_compute. discriminate.
  - reflexivity.
Defined.

(** ** Entries are never lost *)

Lemma merged_app_grows (l1 l2 : list Sighting.t) (d : Data.t) :
  merged l1 = Some d ->
  exists d',
    merged (l1 ++ l2) = Some d'
    /\ Data.label d' = Data.label d
    /\ (Data.score d <= Data.score d')%Q
    /\ Data.stories d ⊆ Data.stories d'.
Proof.
  destruct l1 as [|first rest]; [discriminate|]. intros [= <-].
  exists (Data.mk (Sighting.label first)
            (foldl qmax (Sighting.score first)
               (Sighting.score <$> (rest ++ l2)%list))
            (list_to_set (Sighting.story_title
                            <$> ((first :: rest) ++ l2)%list))).
  split; [reflexivity|].
  cbn [Data.label Data.score Data.stories]. split; [reflexivity|]. split.
  - rewrite fmap_app, foldl_app. apply foldl_qmax_ge_init.
  - rewrite fmap_app, list_to_set_app_L. apply union_subseteq_l.
Qed.

(** X9. Processing further rows never removes a record and never changes
    its label: every record of a run is still there, under the same name
    and label, after any rows are appended, with a confidence that is not
    lower and a story list that has lost no title. *)
Theorem appended_rows_keep_records
    (ner_pipeline : string -> result (list Entity.t))
    (rows more : list Row.t) (r : Rec.t) :
  r ∈ run_ner_process ner_pipeline rows ->
  exists r',
    r' ∈ run_ner_process ner_pipeline (rows ++ more)
    /\ Rec.name r' = Rec.name r
    /\ Rec.label r' = Rec.label r
    /\ (Rec.confidence r <= Rec.confidence r')%Q
    /\ (forall t, t ∈ Rec.stories r -> t ∈ Rec.stories r').
Proof.
  rewrite !run_ner_process_accepted, accepted_spans_app.
  intros Hr. apply record_is_merge in Hr as (d & Hd & ->).
  set (k := Rec.name r) in *.
  destruct (merged_app_grows _
              (sightings_of k (accepted_spans ner_pipeline more)) _ Hd)
    as (d' & Hd' & Hlabel & Hscore & Hstories).
  exists (to_record (k, d')). split.
  - apply elem_of_final_output. exists k, d'. split; [|reflexivity].
    rewrite aggregate_all_lookup. unfold sightings_of.
    rewrite filter_app. exact Hd'.
  - simpl. split; [reflexivity|]. split; [exact Hlabel|].
    split; [exact Hscore|].
    intros t. rewrite !sorted_stories_elem. apply Hstories.
Qed.

Lemma appended_rows_keep_records_witness :
  exists r',
    r' ∈ run_ner_process two_spellings_pipeline
           (two_spellings_rows ++ [Row.mk "arya dan Arya" "S2"])
    /\ Rec.name r' = "Arya"
    /\ Rec.label r' = "Person"
    /\ (0.9 <= Rec.confidence r')%Q
    /\ (forall t, t ∈ ["S1"] -> t ∈ Rec.stories r').
Proof.
  exact (appended_rows_keep_records two_spellings_pipeline
           two_spellings_rows [Row.mk "arya dan Arya" "S2"]
           (Rec.mk "Arya" "Person" 0.9 ["S1"]) two_spellings_member).
Defined.

(** ** Counters and diagnostics of the harness *)

Lemma dict_set_keys {V : Type} (k : string) (v : V) (d : list (string * V)) :
  (dict_set k v d).*1 = if bool_decide (k ∈ d.*1) then d.*1
                        else (d.*1 ++ [k])%list.
Proof.
  induction d as [|[k' v'] d IH]; [reflexivity|].
  cbn [dict_set].
  destruct (String.eqb_spec k' k) as [->|Hne]; rewrite !fmap_cons;
    cbn [fst].
  - rewrite bool_decide_eq_true_2 by apply list_elem_of_here. reflexivity.
  - rewrite IH. destruct (bool_decide (k ∈ d.*1)) eqn:Hk.
    + apply bool_decide_eq_true in Hk.
      rewrite bool_decide_eq_true_2 by (apply list_elem_of_further, Hk).
      reflexivity.
    + apply bool_decide_eq_false in Hk.
      rewrite bool_decide_eq_false_2; [reflexivity|].
      intros [Heq|Hin]%elem_of_cons; [congruence|contradiction].
Qed.

Lemma dict_set_entries {V : Type} (P : string -> V -> Prop) (k : string)
    (v : V) (d : list (string * V)) :
  P k v -> Forall (fun kv => P kv.1 kv.2) d ->
  Forall (fun kv => P kv.1 kv.2) (dict_set k v d).
Proof.
  intros Hkv. induction d as [|[k' v'] d IH]; intros Hd; simpl.
  - constructor; [exact Hkv|constructor].
  - apply Forall_cons in Hd as [Hhd Htl].
    destruct (String.eqb_spec k' k) as [->|Hne].
    + constructor; [exact Hkv|exact Htl].
    + constructor; [exact Hhd|apply IH, Htl].
Qed.

(** The iterated dictionary has every lowercased gold name once, in the
    order of first appearance, and each key is the lowercased name of its
    entry. *)
Lemma gold_truth_shape (gold : list Gold.t) :
  NoDup (gold_truth_of gold).*1
  /\ (forall k, k ∈ (gold_truth_of gold).*1
                <-> k ∈ (fun g => Py.lower (Gold.name g)) <$> gold)
  /\ Forall (fun kv => kv.1 = Py.lower (Gold.name kv.2) /\ kv.2 ∈ gold)
       (gold_truth_of gold)
  /\ (length (gold_truth_of gold) <= length gold)%nat.
Proof.
  unfold gold_truth_of.
  induction gold as [|g gold IH] using rev_ind.
  - simpl. split; [constructor|]. split; [reflexivity|].
    split; [constructor|lia].
  - rewrite foldl_snoc.
    set (d := foldl _ [] gold) in *.
    destruct IH as (Hnodup & Hkeys & Hentries & Hlen).
    pose proof (dict_set_keys (Py.lower (Gold.name g)) g d) as Hset.
    assert (Hlen' : length (dict_set (Py.lower (Gold.name g)) g d)
                    = length (dict_set (Py.lower (Gold.name g)) g d).*1)
      by (rewrite length_fmap; reflexivity).
    assert (Hlend : length d = length d.*1)
      by (rewrite length_fmap; reflexivity).
    split; [|split; [|split]].
    + rewrite Hset. destruct (bool_decide _) eqn:Hk; [exact Hnodup|].
      apply bool_decide_eq_false in Hk.
      apply NoDup_app. split; [exact Hnodup|]. split.
      * intros x Hx [->|H]%elem_of_cons; [contradiction|inversion H].
      * apply NoDup_singleton.
    + intros k. rewrite Hset, fmap_app, elem_of_app. simpl.
      rewrite list_elem_of_singleton, <- Hkeys.
      destruct (bool_decide _) eqn:Hk.
      * apply bool_decide_eq_true in Hk. split; [tauto|].
        intros [H | ->]; assumption.
      * rewrite elem_of_app, list_elem_of_singleton. reflexivity.
    + apply (dict_set_entries
               (fun k v => k = Py.lower (Gold.name v)
                           /\ v ∈ (gold ++ [g])%list)).
      * split; [reflexivity|]. apply elem_of_app. right.
        apply list_elem_of_here.
      * eapply Forall_impl; [exact Hentries|].
        intros [k v] [H1 H2]. split; [exact H1|].
        apply elem_of_app. left. exact H2.
    + rewrite Hlen', Hset, List.length_app. simpl.
      destruct (bool_decide _); rewrite ?List.length_app; simpl; lia.
Qed.

Lemma count_item_step (mp : gmap string Rec.t) (c : Counts.t)
    (kv : string * Gold.t) :
  let c' := count_item mp c kv in
  Counts.tp c' + Counts.fn c' = Counts.tp c + Counts.fn c + 1
  /\ Counts.strict_fp_label_error c' - Counts.strict_fp_label_error c
     = (if is_label_error mp kv then 1 else 0)
  /\ Counts.fn c <= Counts.fn c'
  /\ Counts.fn c' - Counts.fn c
     >= Counts.strict_fp_label_error c' - Counts.strict_fp_label_error c
  /\ Mismatch.name <$> Counts.printed c'
     = ((Mismatch.name <$> Counts.printed c)
        ++ (if is_label_error mp kv then [Gold.name kv.2] else []))%list.
Proof.
  destruct kv as [k g]. unfold count_item, is_label_error. simpl.
  destruct (mp !! k) as [prediction|]; simpl.
  - destruct (String.eqb _ _); simpl.
    + repeat split; try lia. rewrite app_nil_r. reflexivity.
    + repeat split; try lia. rewrite fmap_app. reflexivity.
  - repeat split; try lia. rewrite app_nil_r. reflexivity.
Qed.

Lemma foldl_count_item_counts (mp : gmap string Rec.t)
    (gt : list (string * Gold.t)) (c : Counts.t) :
  let c' := foldl (count_item mp) c gt in
  Counts.tp c' + Counts.fn c'
  = Counts.tp c + Counts.fn c + Z.of_nat (length gt)
  /\ Counts.strict_fp_label_error c' - Counts.strict_fp_label_error c
     = Z.of_nat (length (List.filter (is_label_error mp) gt))
  /\ Counts.fn c' - Counts.fn c
     >= Counts.strict_fp_label_error c' - Counts.strict_fp_label_error c
  /\ Mismatch.name <$> Counts.printed c'
     = ((Mismatch.name <$> Counts.printed c)
        ++ ((fun kv : string * Gold.t => Gold.name kv.2)
              <$> List.filter (is_label_error mp) gt))%list.
Proof.
  revert c. induction gt as [|kv gt IH]; intros c.
  - simpl. repeat split; try lia. rewrite app_nil_r. reflexivity.
  - cbn [foldl List.filter].
    destruct (IH (count_item mp c kv)) as (H1 & H2 & H3 & H4).
    destruct (count_item_step mp c kv) as (S1 & S2 & S3 & S4 & S5).
    cbv zeta in *.
    split; [simpl length; lia|]. split; [|split].
    + destruct (is_label_error mp kv); simpl length; lia.
    + lia.
    + rewrite H4, S5. rewrite <- app_assoc. f_equal.
      destruct (is_label_error mp kv); reflexivity.
Qed.

Lemma gold_truth_length_distinct (gold : list Gold.t) :
  NoDup ((fun g => Py.lower (Gold.name g)) <$> gold) ->
  length (gold_truth_of gold) = length gold.
Proof.
  intros Hnodup.
  destruct (gold_truth_shape gold) as (Hkeys_nodup & Hkeys & _ & _).
  rewrite <- (length_fmap fst (gold_truth_of gold)).
  rewrite <- (length_fmap (fun g => Py.lower (Gold.name g)) gold).
  apply Permutation_length, NoDup_Permutation; assumption.
Qed.

(** The report, field by field, in terms of the loop's counters. *)
Lemma calculate_metrics_fields (json_results : list Rec.t)
    (gold : list Gold.t) :
  exists r,
    calculate_metrics json_results gold = Ok r
    /\ Report.tp r + Report.fn r = Z.of_nat (length (gold_truth_of gold))
    /\ Report.strict_fp_label_error r
       = Z.of_nat (length (List.filter
                             (is_label_error
                                (model_predictions_of json_results))
                             (gold_truth_of gold)))
    /\ Report.strict_fp_label_error r <= Report.fn r
    /\ Mismatch.name <$> Report.mismatches r
       = (fun kv : string * Gold.t => Gold.name kv.2)
           <$> List.filter
                 (is_label_error (model_predictions_of json_results))
                 (gold_truth_of gold)
    /\ Report.label_mismatch_list r
       = fst <$> List.filter
                   (is_label_error (model_predictions_of json_results))
                   (gold_truth_of gold).
Proof.
  unfold calculate_metrics.
  set (mp := model_predictions_of json_results).
  pose proof (foldl_count_item_counts mp (gold_truth_of gold)
                (Counts.mk 0 0 0 0 [])) as Hfold.
  cbv zeta in Hfold.
  set (c := foldl (count_item mp) (Counts.mk 0 0 0 0 []) (gold_truth_of gold))
    in *.
  destruct Hfold as (H1 & H2 & H3 & H4). simpl in H1, H2, H3, H4.
  destruct (percentage_ok (Counts.tp c) (Z.of_nat (length gold)))
    as (recall & -> & _).
  destruct (percentage_ok (Counts.strict_tp c)
              (Counts.strict_tp c + Counts.strict_fp_label_error c))
    as (sp & Hsp_eq & _).
  cbn [bind]. rewrite Hsp_eq. cbn [bind].
  destruct (f1_ok sp recall) as (f1 & -> & _).
  cbn [bind]. eexists. split; [reflexivity|]. cbn.
  split; [lia|]. split; [lia|]. split; [lia|].
  split; [exact H4|reflexivity].
Qed.

(** X10. Counters and diagnostics of the harness agree with each other.
    Every distinct lowercased gold name is counted exactly once, as a true
    positive or as a false negative, so [tp + fn] never exceeds the size of
    the gold list and equals it when no two gold names agree up to case. A
    label error is always also counted in [fn]. There are as many
    [[MISMATCH]] lines as label errors, and the key list of the closing
    "LABEL ERRORS DETECTED" section is the lowercased names of these lines,
    in the same order. *)
Theorem harness_counts (json_results : list Rec.t) (gold : list Gold.t) :
  exists r,
    calculate_metrics json_results gold = Ok r
    /\ Report.tp r + Report.fn r <= Report.gold_standard_size r
    /\ (NoDup ((fun g => Py.lower (Gold.name g)) <$> gold) ->
        Report.tp r + Report.fn r = Report.gold_standard_size r)
    /\ 0 <= Report.strict_fp_label_error r <= Report.fn r
    /\ Z.of_nat (length (Report.mismatches r))
       = Report.strict_fp_label_error r
    /\ Report.label_mismatch_list r
       = (fun m => Py.lower (Mismatch.name m)) <$> Report.mismatches r.
Proof.
  destruct (calculate_metrics_fields json_results gold)
    as (r & Hr & Hsum & Herr & Hle & Hnames & Hkeys).
  destruct (calculate_metrics_report json_results gold)
    as (r' & Hr' & Hsize & _ & _ & _ & Herr0 & _).
  assert (r' = r) by congruence. subst r'.
  destruct (gold_truth_shape gold) as (_ & _ & Hentries & Hlen).
  exists r. split; [exact Hr|].
  split; [lia|]. split.
  { intros Hnodup. rewrite Hsum, Hsize.
    rewrite (gold_truth_length_distinct gold Hnodup). reflexivity. }
  split; [lia|]. split.
  { rewrite Herr, <- (length_fmap Mismatch.name), Hnames, length_fmap.
    reflexivity. }
  rewrite Hkeys, (list_fmap_compose Mismatch.name Py.lower), Hnames.
  rewrite <- list_fmap_compose. apply Forall_fmap_ext_1.
  apply List.Forall_forall. intros kv Hkv.
  apply List.filter_In in Hkv as [Hkv _].
  rewrite List.Forall_forall in Hentries.
  destruct (Hentries kv Hkv) as [Hkey _]. exact Hkey.
Qed.

Lemma harness_counts_witness :
  exists r,
    calculate_metrics (scenario_predictions 0.9 0.8 [] []) scenario_gold
      = Ok r
    /\ Report.tp r + Report.fn r = Report.gold_standard_size r
    /\ Report.label_mismatch_list r
       = (fun m => Py.lower (Mismatch.name m)) <$> Report.mismatches r.
Proof.
  destruct (harness_counts (scenario_predictions 0.9 0.8 [] [])
              scenario_gold)
    as (r & Hr & _ & Hsum & _ & _ & Hlist).
  exists r. split; [exact Hr|]. split; [|exact Hlist].
  apply Hsum. vm_compute.
  apply NoDup_cons_2; [|apply NoDup_singleton].
  rewrite list_elem_of_singleton. discriminate.
Defined.

Lemma percentage_bounds (count denominator : Z) (p : Q) :
  0 <= count <= denominator -> 0 < denominator ->
  (p == inject_Z count / inject_Z denominator * 100)%Q ->
  (0 <= p <= 100)%Q.
Proof.
  intros Hcount Hden ->.
  destruct denominator as [|d|d]; try lia.
  unfold Qle, Qdiv, Qmult, Qinv, inject_Z. simpl. split; nia.
Qed.

Lemma f1_bounds (sp rc f1 : Q) :
  (0 <= sp <= 100)%Q -> (0 <= rc <= 100)%Q ->
  ((0 < sp + rc)%Q -> (f1 == 2 * (sp * rc) / (sp + rc))%Q) ->
  ((rc == 0)%Q -> (sp == 0)%Q -> (f1 == 0)%Q) ->
  (0 <= f1 <= 100)%Q.
Proof.
  intros [Hsp0 Hsp] [Hrc0 Hrc] Hpos Hzero.
  destruct (Qlt_le_dec 0 (sp + rc)) as [Hsum|Hsum].
  - rewrite (Hpos Hsum). split.
    + apply Qle_shift_div_l; [exact Hsum|]. nra.
    + apply Qle_shift_div_r; [exact Hsum|]. nra.
  - assert (Hr : (rc == 0)%Q) by lra.
    assert (Hs : (sp == 0)%Q) by lra.
    rewrite (Hzero Hr Hs). split; lra.
Qed.

(** X11. The three percentages of the report lie between 0 and 100, for
    every prediction list and every gold list. *)
Theorem metrics_bounds (json_results : list Rec.t) (gold : list Gold.t) :
  exists r,
    calculate_metrics json_results gold = Ok r
    /\ (0 <= Report.recall r <= 100)%Q
    /\ (0 <= Report.strict_precision r <= 100)%Q
    /\ (0 <= Report.f1 r <= 100)%Q.
Proof.
  destruct (calculate_metrics_fields json_results gold)
    as (r & Hr & Hsum & _ & Hle & _ & _).
  destruct (calculate_metrics_report json_results gold)
    as (r' & Hr' & Hsize & Htotal & Hstrict & Htp & Herr & _ & Hrecall
        & Hrecall0 & Hsp & Hsp0 & Hf1 & Hf10).
  assert (r' = r) by congruence. subst r'.
  destruct (gold_truth_shape gold) as (_ & _ & _ & Hlen).
  assert (Hrc : (0 <= Report.recall r <= 100)%Q).
  { destruct (Z.lt_ge_cases 0 (Report.gold_standard_size r)) as [Hpos|Hz].
    - apply (percentage_bounds (Report.tp r) (Report.gold_standard_size r));
        [lia|exact Hpos|exact (Hrecall Hpos)].
    - rewrite Hrecall0 by lia. split; [apply Qle_refl|discriminate]. }
  assert (Hpr : (0 <= Report.strict_precision r <= 100)%Q).
  { destruct (Z.lt_ge_cases 0 (Report.total_found_in_gold_set r))
      as [Hpos|Hz].
    - apply (percentage_bounds (Report.strict_tp r)
               (Report.total_found_in_gold_set r));
        [lia|exact Hpos|exact (Hsp Hpos)].
    - rewrite Hsp0 by lia. split; [apply Qle_refl|discriminate]. }
  exists r. split; [exact Hr|]. split; [exact Hrc|]. split; [exact Hpr|].
  exact (f1_bounds _ _ _ Hpr Hrc Hf1 Hf10).
Qed.

(** ** Which predictions the harness reads *)

Lemma predictions_lookup_congr (l : list Rec.t) (m m' : gmap string Rec.t)
    (k : string) :
  m !! k = m' !! k ->
  foldl (fun d item => <[Py.lower (Rec.name item) := item]> d) m l !! k
  = foldl (fun d item => <[Py.lower (Rec.name item) := item]> d) m' l !! k.
Proof.
  revert m m'. induction l as [|a l IH]; intros m m' Hk; [exact Hk|].
  simpl. apply IH.
  destruct (decide (Py.lower (Rec.name a) = k)) as [->|Hne].
  - rewrite !lookup_insert_eq. reflexivity.
  - rewrite !lookup_insert_ne by exact Hne. exact Hk.
Qed.

Lemma predictions_lookup_without (l1 l2 : list Rec.t) (e : Rec.t)
    (k : string) :
  k <> Py.lower (Rec.name e) ->
  model_predictions_of (l1 ++ e :: l2) !! k
  = model_predictions_of (l1 ++ l2) !! k.
Proof.
  intros Hne. unfold model_predictions_of. rewrite !foldl_app. simpl.
  apply predictions_lookup_congr. rewrite lookup_insert_ne by congruence.
  reflexivity.
Qed.

Lemma predictions_lookup_overwritten (l1 l2 : list Rec.t) (e e' : Rec.t) :
  e' ∈ l2 -> Py.lower (Rec.name e') = Py.lower (Rec.name e) ->
  model_predictions_of (l1 ++ e :: l2) = model_predictions_of (l1 ++ l2).
Proof.
  intros Hin Hkey. apply map_eq. intros k.
  destruct (decide (k = Py.lower (Rec.name e))) as [->|Hne];
    [|apply predictions_lookup_without, Hne].
  apply list_elem_of_split in Hin as (a & b & ->).
  unfold model_predictions_of.
  rewrite !foldl_app. simpl. rewrite !foldl_app. simpl.
  apply predictions_lookup_congr.
  rewrite <- Hkey, !lookup_insert_eq. reflexivity.
Qed.

Lemma count_item_ext (mp mp' : gmap string Rec.t) (c : Counts.t)
    (kv : string * Gold.t) :
  mp !! kv.1 = mp' !! kv.1 -> count_item mp c kv = count_item mp' c kv.
Proof.
  destruct kv as [k g]. simpl. intros H. unfold count_item. rewrite H.
  reflexivity.
Qed.

Lemma foldl_count_item_ext (mp mp' : gmap string Rec.t)
    (gt : list (string * Gold.t)) (c : Counts.t) :
  Forall (fun kv => mp !! kv.1 = mp' !! kv.1) gt ->
  foldl (count_item mp) c gt = foldl (count_item mp') c gt.
Proof.
  revert c. induction gt as [|kv gt IH]; intros c Hgt; [reflexivity|].
  apply Forall_cons in Hgt as [Hkv Hgt]. simpl.
  rewrite (count_item_ext mp mp' c kv Hkv). apply IH, Hgt.
Qed.

Lemma label_mismatch_list_ext (mp mp' : gmap string Rec.t)
    (gt : list (string * Gold.t)) :
  Forall (fun kv => mp !! kv.1 = mp' !! kv.1) gt ->
  label_mismatch_list_of mp gt = label_mismatch_list_of mp' gt.
Proof.
  unfold label_mismatch_list_of. intros Hgt. f_equal.
  induction gt as [|kv gt IH]; [reflexivity|].
  apply Forall_cons in Hgt as [Hkv Hgt]. cbn [List.filter].
  rewrite (IH Hgt).
  replace (is_label_error mp kv) with (is_label_error mp' kv);
    [reflexivity|].
  unfold is_label_error. rewrite Hkv. reflexivity.
Qed.

(** The harness reads the predictions only at the lowercased gold names. *)
Lemma calculate_metrics_ext (json_results json_results' : list Rec.t)
    (gold : list Gold.t) :
  (forall g, g ∈ gold ->
     model_predictions_of json_results !! Py.lower (Gold.name g)
     = model_predictions_of json_results' !! Py.lower (Gold.name g)) ->
  calculate_metrics json_results gold = calculate_metrics json_results' gold.
Proof.
  intros Hsame.
  assert (Hgt : Forall (fun kv : string * Gold.t =>
                          model_predictions_of json_results !! kv.1
                          = model_predictions_of json_results' !! kv.1)
                  (gold_truth_of gold)).
  { destruct (gold_truth_shape gold) as (_ & _ & Hentries & _).
    eapply Forall_impl; [exact Hentries|].
    intros [k g] [-> Hg]. simpl. apply Hsame, Hg. }
  unfold calculate_metrics.
  rewrite (foldl_count_item_ext _ _ _ _ Hgt).
  rewrite (label_mismatch_list_ext _ _ _ Hgt). reflexivity.
Qed.

(** X12. The harness ignores what the gold list does not cover: a
    prediction whose lowercased name is the lowercased name of no gold entry
    can be removed from the prediction list, wherever it stands, without
    changing the report. *)
Theorem uncovered_prediction_ignored (before after : list Rec.t)
    (extra : Rec.t) (gold : list Gold.t) :
  (forall g, g ∈ gold ->
     Py.lower (Gold.name g) <> Py.lower (Rec.name extra)) ->
  calculate_metrics (before ++ extra :: after) gold
  = calculate_metrics (before ++ after) gold.
Proof.
  intros Hnew. apply calculate_metrics_ext. intros g Hg.
  apply predictions_lookup_without, Hnew, Hg.
Qed.

Lemma uncovered_prediction_ignored_witness :
  calculate_metrics
    ([Rec.mk "prabu basukesti" "Person" 0.9 []]
     ++ Rec.mk "Gilingwesi" "Location" 0.9 []
     :: [Rec.mk "medang kamulan" "Person" 0.8 []]) scenario_gold
  = calculate_metrics
      ([Rec.mk "prabu basukesti" "Person" 0.9 []]
       ++ [Rec.mk "medang kamulan" "Person" 0.8 []]) scenario_gold.
Proof.
  apply (uncovered_prediction_ignored
           [Rec.mk "prabu basukesti" "Person" 0.9 []]
           [Rec.mk "medang kamulan" "Person" 0.8 []]
           (Rec.mk "Gilingwesi" "Location" 0.9 []) scenario_gold).
  intros g Hg. unfold scenario_gold in Hg.
  apply elem_of_cons in Hg as [->|Hg]; [vm_compute; discriminate|].
  apply list_elem_of_singleton in Hg as ->. vm_compute. discriminate.
Defined.

(** X13. Of two predictions whose names agree up to case the harness reads
    the later one only: the earlier one can be removed without changing the
    report. *)
Theorem earlier_spelling_ignored (before after : list Rec.t)
    (earlier later : Rec.t) (gold : list Gold.t) :
  later ∈ after ->
  Py.lower (Rec.name later) = Py.lower (Rec.name earlier) ->
  calculate_metrics (before ++ earlier :: after) gold
  = calculate_metrics (before ++ after) gold.
Proof.
  intros Hin Hkey. unfold calculate_metrics.
  rewrite (predictions_lookup_overwritten before after earlier later Hin Hkey).
  reflexivity.
Qed.

Lemma earlier_spelling_ignored_witness :
  calculate_metrics
    ([] ++ Rec.mk "Arya" "Person" 0.9 ["S1"]
        :: [Rec.mk "arya" "Person" 0.8 ["S1"]]) GOLD_STANDARD
  = calculate_metrics ([] ++ [Rec.mk "arya" "Person" 0.8 ["S1"]])
      GOLD_STANDARD.
Proof.
  apply (earlier_spelling_ignored [] [Rec.mk "arya" "Person" 0.8 ["S1"]]
           (Rec.mk "Arya" "Person" 0.9 ["S1"])
           (Rec.mk "arya" "Person" 0.8 ["S1"]) GOLD_STANDARD).
  - apply list_elem_of_here.
  - reflexivity.
Defined.

(** ** The cleaned form *)

Lemma is_hash_spec (c : ascii) : is_hash c = true <-> c = "#"%char.
Proof. unfold is_hash. apply Ascii.eqb_eq. Qed.

(** [replace_marker], with its pattern written as tests. *)
Lemma replace_marker_eq (word : string) :
  replace_marker word
  = match word with
    | EmptyString => EmptyString
    | String c rest =>
        if is_hash c
        then match rest with
             | EmptyString => String c EmptyString
             | String c2 rest2 =>
                 if is_hash c2 then replace_marker rest2
                 else String c (replace_marker rest)
             end
        else String c (replace_marker rest)
    end.
Proof.
  destruct word as [|c rest]; [reflexivity|].
  destruct (is_hash c) eqn:Hc.
  - apply is_hash_spec in Hc. subst c.
    destruct rest as [|c2 rest2]; [reflexivity|].
    destruct (is_hash c2) eqn:Hc2.
    + apply is_hash_spec in Hc2. subst c2. reflexivity.
    + destruct c2 as [[] [] [] [] [] [] [] []];
        first [reflexivity|discriminate Hc2].
  - destruct c as [[] [] [] [] [] [] [] []];
      first [reflexivity|discriminate Hc].
Qed.

Lemma replace_marker_shape (n : nat) (word : string) :
  (String.length word <= n)%nat ->
  has_adjacent is_hash (replace_marker word) = false
  /\ (head_is is_hash word = false ->
      head_is is_hash (replace_marker word) = false)
  /\ (String.length (replace_marker word) <= String.length word)%nat.
Proof.
  revert word. induction n as [|n IH]; intros word Hlen.
  - destruct word; [|simpl in Hlen; lia]. repeat split; auto.
  - rewrite replace_marker_eq. destruct word as [|c rest].
    { repeat split; auto. }
    simpl in Hlen.
    destruct (IH rest ltac:(lia)) as (Hadj & Hhead & Hlen').
    destruct (is_hash c) eqn:Hc.
    + destruct rest as [|c2 rest2].
      { simpl. rewrite Hc. repeat split; auto. }
      destruct (is_hash c2) eqn:Hc2.
      * simpl in Hlen.
        destruct (IH rest2 ltac:(lia)) as (Hadj2 & _ & Hlen2).
        split; [exact Hadj2|]. split; [simpl; congruence|].
        simpl. lia.
      * split; [|split].
        -- cbn [has_adjacent]. rewrite Hadj, Hhead by exact Hc2.
           rewrite andb_false_r. reflexivity.
        -- simpl. congruence.
        -- simpl in *. lia.
    + split; [|split].
      * cbn [has_adjacent]. rewrite Hc, Hadj. reflexivity.
      * simpl. auto.
      * simpl in *. lia.
Qed.

Lemma replace_marker_fixed (word : string) :
  has_adjacent is_hash word = false -> replace_marker word = word.
Proof.
  induction word as [|c rest IH]; [reflexivity|].
  cbn [has_adjacent]. intros H. apply orb_false_elim in H as [Hc Hrest].
  rewrite replace_marker_eq. destruct (is_hash c) eqn:Ec.
  - destruct rest as [|c2 rest2]; [reflexivity|].
    simpl in Hc. rewrite Hc. f_equal. apply IH, Hrest.
  - f_equal. apply IH, Hrest.
Qed.

Lemma has_adjacent_cons (q : ascii -> bool) (c : ascii) (s : string) :
  has_adjacent q (String c s) = (q c && head_is q s) || has_adjacent q s.
Proof. reflexivity. Qed.

Lemma lstrip_shape (p q : ascii -> bool) (s : string) :
  head_is p (Py.lstrip p s) = false
  /\ (has_adjacent q s = false -> has_adjacent q (Py.lstrip p s) = false)
  /\ (String.length (Py.lstrip p s) <= String.length s)%nat.
Proof.
  induction s as [|c s (IH1 & IH2 & IH3)]; [auto|].
  simpl. destruct (p c) eqn:Hc.
  - split; [exact IH1|]. split; [|lia].
    intros H. apply orb_false_elim in H as [_ H]. apply IH2, H.
  - simpl. rewrite Hc. auto.
Qed.

Lemma rstrip_shape (p q : ascii -> bool) (s : string) :
  last_is p (Py.rstrip p s) = false
  /\ (head_is q s = false -> head_is q (Py.rstrip p s) = false)
  /\ (has_adjacent q s = false -> has_adjacent q (Py.rstrip p s) = false)
  /\ (String.length (Py.rstrip p s) <= String.length s)%nat.
Proof.
  induction s as [|c s (IH1 & IH2 & IH3 & IH4)]; [auto|].
  cbn [Py.rstrip]. destruct (Py.rstrip p s) as [|c' r] eqn:Hr.
  - destruct (p c) eqn:Hc; simpl; [auto with lia|].
    rewrite Hc. repeat split; auto with lia.
  - split; [exact IH1|]. split; [auto|]. split; [|simpl in *; lia].
    rewrite !(has_adjacent_cons q c). intros H.
    apply orb_false_elim in H as [Hc Hs].
    rewrite (IH3 Hs), orb_false_r.
    destruct (q c); [|reflexivity]. simpl in Hc. simpl.
    exact (IH2 Hc).
Qed.

Lemma lstrip_fixed (p : ascii -> bool) (s : string) :
  head_is p s = false -> Py.lstrip p s = s.
Proof. destruct s as [|c s]; simpl; [auto|intros ->; reflexivity]. Qed.

Lemma rstrip_fixed (p : ascii -> bool) (s : string) :
  last_is p s = false -> Py.rstrip p s = s.
Proof.
  induction s as [|c s IH]; [reflexivity|].
  cbn [Py.rstrip last_is]. destruct s as [|c' s'].
  - simpl. intros ->. reflexivity.
  - intros H. rewrite (IH H). reflexivity.
Qed.

Lemma sub_spaces_cons (c : ascii) (rest : string) :
  sub_spaces (String c rest)
  = if Ascii.eqb c " " then String " " (skip_spaces rest)
    else String c (sub_spaces rest).
Proof. reflexivity. Qed.

Lemma skip_spaces_cons (c : ascii) (rest : string) :
  skip_spaces (String c rest)
  = if Ascii.eqb c " " then skip_spaces rest
    else String c (sub_spaces rest).
Proof. reflexivity. Qed.

Lemma last_is_cons (q : ascii -> bool) (c : ascii) (s : string) :
  last_is q (String c s)
  = match s with
    | EmptyString => q c
    | String _ _ => last_is q s
    end.
Proof. destruct s; reflexivity. Qed.

Lemma sub_spaces_head (q : ascii -> bool) (s : string) :
  head_is q (sub_spaces s) = head_is q s.
Proof.
  destruct s as [|c rest]; [reflexivity|]. rewrite sub_spaces_cons.
  destruct (Ascii.eqb_spec c " ") as [->|Hc]; reflexivity.
Qed.

Lemma sub_spaces_no_double (s : string) :
  has_adjacent is_space (sub_spaces s) = false
  /\ has_adjacent is_space (skip_spaces s) = false
  /\ head_is is_space (skip_spaces s) = false.
Proof.
  induction s as [|c rest (IH1 & IH2 & IH3)]; [auto|].
  rewrite sub_spaces_cons, skip_spaces_cons.
  destruct (Ascii.eqb c " ") eqn:Hc.
  - rewrite has_adjacent_cons, IH2, IH3, andb_false_r. auto.
  - rewrite has_adjacent_cons, IH1.
    unfold is_space at 1 3. simpl. rewrite Hc. auto.
Qed.

Lemma sub_spaces_hashes (s : string) :
  has_adjacent is_hash (sub_spaces s) = has_adjacent is_hash s
  /\ has_adjacent is_hash (skip_spaces s) = has_adjacent is_hash s.
Proof.
  induction s as [|c rest (IH1 & IH2)]; [auto|].
  rewrite sub_spaces_cons, skip_spaces_cons.
  destruct (Ascii.eqb_spec c " ") as [->|Hc].
  - rewrite !has_adjacent_cons, IH2. auto.
  - rewrite !has_adjacent_cons, IH1, sub_spaces_head. auto.
Qed.

Lemma sub_spaces_last (q : ascii -> bool) (s : string) :
  last_is q (sub_spaces s) = last_is q s
  /\ last_is q (String " " (skip_spaces s)) = last_is q (String " " s).
Proof.
  induction s as [|c rest (IH1 & IH2)]; [auto|].
  assert (Hkeep : last_is q (String c (sub_spaces rest))
                  = last_is q (String c rest)).
  { rewrite !last_is_cons. destruct rest as [|d rest']; [reflexivity|].
    rewrite <- IH1. rewrite sub_spaces_cons.
    destruct (Ascii.eqb d " "); reflexivity. }
  rewrite sub_spaces_cons, skip_spaces_cons.
  destruct (Ascii.eqb_spec c " ") as [->|Hc].
  - split; [exact IH2|]. rewrite IH2. reflexivity.
  - split; [exact Hkeep|].
    rewrite (last_is_cons q " " (String c (sub_spaces rest))), Hkeep.
    reflexivity.
Qed.

Lemma sub_spaces_length (s : string) :
  (String.length (sub_spaces s) <= String.length s)%nat
  /\ (String.length (skip_spaces s) <= String.length s)%nat.
Proof.
  induction s as [|c rest (IH1 & IH2)]; [auto|].
  rewrite sub_spaces_cons, skip_spaces_cons.
  destruct (Ascii.eqb c " "); simpl; lia.
Qed.

Lemma sub_spaces_fixed (s : string) :
  has_adjacent is_space s = false ->
  sub_spaces s = s
  /\ (head_is is_space s = false -> skip_spaces s = s).
Proof.
  induction s as [|c rest IH]; [auto|].
  rewrite has_adjacent_cons. intros H.
  apply orb_false_elim in H as [Hc Hrest].
  destruct (IH Hrest) as [IH1 IH2].
  rewrite sub_spaces_cons, skip_spaces_cons.
  destruct (Ascii.eqb_spec c " ") as [->|Hne].
  - simpl in Hc. split; [|discriminate]. rewrite (IH2 Hc). reflexivity.
  - rewrite IH1. auto.
Qed.

Lemma clean_entity_name_shape_aux (word : string) :
  has_adjacent is_hash (clean_entity_name word) = false
  /\ head_is (Py.mem_char STRIP_CHARS) (clean_entity_name word) = false
  /\ last_is (Py.mem_char STRIP_CHARS) (clean_entity_name word) = false
  /\ has_adjacent is_space (clean_entity_name word) = false.
Proof.
  unfold clean_entity_name, Py.strip_chars.
  set (p := Py.mem_char STRIP_CHARS).
  set (w1 := replace_marker word).
  set (w2 := Py.lstrip p w1).
  set (w3 := Py.rstrip p w2).
  destruct (replace_marker_shape (String.length word) word (le_n _))
    as (H1 & _ & _). fold w1 in H1.
  destruct (lstrip_shape p is_hash w1) as (Hh2 & H2 & _).
  fold w2 in Hh2, H2.
  destruct (rstrip_shape p is_hash w2) as (Hl3 & _ & H3 & _).
  destruct (rstrip_shape p p w2) as (_ & Hh3 & _ & _).
  fold w3 in Hl3, H3, Hh3.
  split; [|split; [|split]].
  - rewrite (proj1 (sub_spaces_hashes w3)). auto.
  - rewrite sub_spaces_head. auto.
  - rewrite (proj1 (sub_spaces_last p w3)). exact Hl3.
  - apply sub_spaces_no_double.
Qed.

Lemma clean_entity_name_length (word : string) :
  Py.len (clean_entity_name word) <= Py.len word.
Proof.
  unfold clean_entity_name, Py.strip_chars.
  set (p := Py.mem_char STRIP_CHARS).
  destruct (replace_marker_shape (String.length word) word (le_n _))
    as (_ & _ & L1).
  destruct (lstrip_shape p p (replace_marker word)) as (_ & _ & L2).
  destruct (rstrip_shape p p (Py.lstrip p (replace_marker word)))
    as (_ & _ & _ & L3).
  pose proof (proj1 (sub_spaces_length
                       (Py.rstrip p (Py.lstrip p (replace_marker word)))))
    as L4.
  unfold Py.len. lia.
Qed.

(** X14. The cleaned form. Whatever the raw string, the cleaned name has no
    continuation marker left (no two adjacent [#]), neither starts nor ends
    with one of the stripped characters (space, [. , : ; ! ?], quotes,
    parentheses), has no two adjacent spaces, and is not longer than the
    raw string. *)
Theorem clean_entity_name_shape (word : string) :
  has_adjacent is_hash (clean_entity_name word) = false
  /\ head_is (Py.mem_char STRIP_CHARS) (clean_entity_name word) = false
  /\ last_is (Py.mem_char STRIP_CHARS) (clean_entity_name word) = false
  /\ has_adjacent is_space (clean_entity_name word) = false
  /\ Py.len (clean_entity_name word) <= Py.len word.
Proof.
  destruct (clean_entity_name_shape_aux word) as (H1 & H2 & H3 & H4).
  repeat (split; [assumption|]). apply clean_entity_name_length.
Qed.

Lemma clean_entity_name_clean (word : string) :
  clean_entity_name (clean_entity_name word) = clean_entity_name word.
Proof.
  destruct (clean_entity_name_shape_aux word) as (Hhash & Hhead & Hlast & Hsp).
  set (w := clean_entity_name word) in *.
  unfold clean_entity_name at 1, Py.strip_chars.
  rewrite (replace_marker_fixed w Hhash).
  rewrite (lstrip_fixed _ w Hhead), (rstrip_fixed _ w Hlast).
  apply sub_spaces_fixed, Hsp.
Qed.

(** X15. Cleaning is idempotent: cleaning a cleaned name returns it
    unchanged. *)
Theorem clean_entity_name_idempotent (word : string) :
  clean_entity_name (clean_entity_name word) = clean_entity_name word.
Proof. apply clean_entity_name_clean. Qed.

(** X16. The names of the table are in cleaned form: cleaning the name of
    any record of a run returns the same name, the name neither starts nor
    ends with a stripped character and has no two adjacent spaces. *)
Theorem record_names_clean
    (ner_pipeline : string -> result (list Entity.t)) (rows : list Row.t)
    (r : Rec.t) :
  r ∈ run_ner_process ner_pipeline rows ->
  clean_entity_name (Rec.name r) = Rec.name r
  /\ head_is (Py.mem_char STRIP_CHARS) (Rec.name r) = false
  /\ last_is (Py.mem_char STRIP_CHARS) (Rec.name r) = false
  /\ has_adjacent is_space (Rec.name r) = false.
Proof.
  rewrite run_ner_process_accepted. intros Hr.
  apply list_elem_of_fmap_2 with (f := Rec.name) in Hr.
  apply name_in_final_output, list_elem_of_fmap in Hr as (s & -> & Hs).
  apply accepted_spans_source in Hs
    as (row & results & entity & raw & _ & _ & _ & _ & _ & _ & ->).
  simpl. split; [apply clean_entity_name_clean|].
  destruct (clean_entity_name_shape_aux raw) as (_ & H2 & H3 & H4). auto.
Qed.

Lemma record_names_clean_witness :
  clean_entity_name "Arya" = "Arya"
  /\ head_is (Py.mem_char STRIP_CHARS) "Arya" = false
  /\ last_is (Py.mem_char STRIP_CHARS) "Arya" = false
  /\ has_adjacent is_space "Arya" = false.
Proof.
  exact (record_names_clean two_spellings_pipeline two_spellings_rows
           (Rec.mk "Arya" "Person" 0.9 ["S1"]) two_spellings_member).
Defined.

(** ** The preprocessed text *)

Lemma sub_whitespace_cons (c : ascii) (rest : string) :
  sub_whitespace (String c rest)
  = if Py.isspace c then String " " (skip_whitespace rest)
    else String c (sub_whitespace rest).
Proof. reflexivity. Qed.

Lemma skip_whitespace_cons (c : ascii) (rest : string) :
  skip_whitespace (String c rest)
  = if Py.isspace c then skip_whitespace rest
    else String c (sub_whitespace rest).
Proof. reflexivity. Qed.

Lemma all_chars_cons (q : ascii -> bool) (c : ascii) (s : string) :
  all_chars q (String c s) = q c && all_chars q s.
Proof. reflexivity. Qed.

Lemma sub_whitespace_shape (s : string) :
  (all_chars plain_char (sub_whitespace s) = true
   /\ has_adjacent Py.isspace (sub_whitespace s) = false)
  /\ (all_chars plain_char (skip_whitespace s) = true
      /\ has_adjacent Py.isspace (skip_whitespace s) = false
      /\ head_is Py.isspace (skip_whitespace s) = false).
Proof.
  induction s as [|c rest ((IH1 & IH2) & IH3 & IH4 & IH5)]; [auto|].
  rewrite sub_whitespace_cons, skip_whitespace_cons.
  destruct (Py.isspace c) eqn:Hc.
  - rewrite all_chars_cons, has_adjacent_cons, IH3, IH4, IH5. auto.
  - rewrite all_chars_cons, has_adjacent_cons, IH1, IH2.
    unfold plain_char. simpl. rewrite Hc. auto.
Qed.

Lemma punctuation_not_space (c : ascii) :
  Py.mem_char SENTENCE_PUNCTUATION c = true -> Py.isspace c = false.
Proof.
  destruct c as [[] [] [] [] [] [] [] []]; vm_compute; intros H;
    first [reflexivity|discriminate H].
Qed.

Lemma letter_not_space (c : ascii) :
  is_ascii_letter c = true -> Py.isspace c = false.
Proof.
  destruct c as [[] [] [] [] [] [] [] []]; vm_compute; intros H;
    first [reflexivity|discriminate H].
Qed.

Lemma space_after_punctuation_cons (c : ascii) (rest : string) :
  space_after_punctuation (String c rest)
  = if Py.mem_char SENTENCE_PUNCTUATION c && letter_ahead rest
    then String c (String " " (space_after_punctuation rest))
    else String c (space_after_punctuation rest).
Proof. reflexivity. Qed.

Lemma space_after_punctuation_head (q : ascii -> bool) (s : string) :
  head_is q (space_after_punctuation s) = head_is q s.
Proof.
  destruct s as [|c rest]; [reflexivity|].
  rewrite space_after_punctuation_cons.
  destruct (_ && _); reflexivity.
Qed.

Lemma space_after_punctuation_shape (s : string) :
  all_chars plain_char s = true ->
  has_adjacent Py.isspace s = false ->
  all_chars plain_char (space_after_punctuation s) = true
  /\ has_adjacent Py.isspace (space_after_punctuation s) = false.
Proof.
  induction s as [|c rest IH]; [auto|].
  rewrite all_chars_cons, has_adjacent_cons. intros Hall Hadj.
  apply andb_true_iff in Hall as [Hc Hall].
  apply orb_false_elim in Hadj as [Hcadj Hadj].
  destruct (IH Hall Hadj) as [IH1 IH2].
  rewrite space_after_punctuation_cons.
  destruct (Py.mem_char SENTENCE_PUNCTUATION c && letter_ahead rest) eqn:Hp.
  - apply andb_true_iff in Hp as [Hpunct Hletter].
    rewrite !all_chars_cons, !has_adjacent_cons, IH1, IH2, Hc.
    rewrite (punctuation_not_space c Hpunct).
    rewrite space_after_punctuation_head.
    destruct rest as [|d rest']; [discriminate|]. simpl in Hletter.
    simpl. rewrite (letter_not_space d Hletter). auto.
  - rewrite all_chars_cons, has_adjacent_cons, IH1, IH2, Hc.
    rewrite space_after_punctuation_head, Hcadj. auto.
Qed.

Lemma sub_around_cons (p : ascii) (replacement : string) (c : ascii)
    (rest : string) :
  sub_around p replacement (String c rest)
  = if Ascii.eqb c p
    then (replacement ++ skip_around p replacement rest)%string
    else if Py.isspace c && whitespace_then p rest
    then sub_around p replacement rest
    else String c (sub_around p replacement rest).
Proof. reflexivity. Qed.

Lemma skip_around_cons (p : ascii) (replacement : string) (c : ascii)
    (rest : string) :
  skip_around p replacement (String c rest)
  = if Py.isspace c then skip_around p replacement rest
    else if Ascii.eqb c p
    then (replacement ++ skip_around p replacement rest)%string
    else String c (sub_around p replacement rest).
Proof. reflexivity. Qed.

Lemma whitespace_then_cons (p c : ascii) (rest : string) :
  whitespace_then p (String c rest)
  = if Ascii.eqb c p then true
    else if Py.isspace c then whitespace_then p rest
    else false.
Proof. reflexivity. Qed.

Section SubAround.

(** The matched character [p] is not whitespace; [hr] and [lr] say whether
    the replacement starts and ends with whitespace, never both. *)
Variables (p : ascii) (replacement : string) (hr lr : bool).
Hypothesis p_not_space : Py.isspace p = false.
Hypothesis not_both : hr && lr = false.
Hypothesis replacement_head :
  forall x, head_is Py.isspace (replacement ++ x)%string = hr.
Hypothesis replacement_adjacent :
  forall x,
    has_adjacent Py.isspace (replacement ++ x)%string
    = (lr && head_is Py.isspace x) || has_adjacent Py.isspace x.
Hypothesis replacement_plain :
  forall x,
    all_chars plain_char (replacement ++ x)%string = all_chars plain_char x.

Lemma around_head (s : string) :
  head_is Py.isspace (sub_around p replacement s)
  = (if whitespace_then p s then hr else head_is Py.isspace s)
  /\ head_is Py.isspace (skip_around p replacement s)
     = (if whitespace_then p s then hr else false).
Proof.
  induction s as [|c rest [IH1 IH2]]; [auto|].
  rewrite sub_around_cons, skip_around_cons, whitespace_then_cons.
  destruct (Ascii.eqb_spec c p) as [->|Hne].
  - rewrite p_not_space, replacement_head. auto.
  - destruct (Py.isspace c) eqn:Hc; cbn [andb].
    + rewrite IH2. destruct (whitespace_then p rest) eqn:Hw.
      * rewrite IH1. auto.
      * cbn [head_is]. rewrite Hc. auto.
    + cbn [head_is]. rewrite Hc. auto.
Qed.

Lemma around_adjacent (s : string) :
  has_adjacent Py.isspace s = false ->
  has_adjacent Py.isspace (sub_around p replacement s) = false
  /\ has_adjacent Py.isspace (skip_around p replacement s) = false.
Proof.
  induction s as [|c rest IH]; [auto|].
  rewrite has_adjacent_cons. intros H.
  apply orb_false_elim in H as [Hc Hrest].
  destruct (IH Hrest) as [IH1 IH2].
  destruct (around_head rest) as [Hsub Hskip].
  assert (Hrep : has_adjacent Py.isspace
                   (replacement ++ skip_around p replacement rest)%string
                 = false).
  { rewrite replacement_adjacent, IH2, Hskip.
    destruct (whitespace_then p rest), hr, lr; auto; discriminate. }
  rewrite sub_around_cons, skip_around_cons.
  destruct (Ascii.eqb_spec c p) as [->|Hne].
  - rewrite p_not_space. auto.
  - destruct (Py.isspace c) eqn:Hsp; cbn [andb].
    + split; [|exact IH2].
      destruct (whitespace_then p rest) eqn:Hw; [exact IH1|].
      rewrite has_adjacent_cons, IH1, Hsub, Hsp.
      cbn [andb] in Hc. rewrite Hc. auto.
    + rewrite has_adjacent_cons, IH1, Hsp. auto.
Qed.

Lemma around_plain (s : string) :
  all_chars plain_char s = true ->
  all_chars plain_char (sub_around p replacement s) = true
  /\ all_chars plain_char (skip_around p replacement s) = true.
Proof.
  induction s as [|c rest IH]; [auto|].
  rewrite all_chars_cons. intros H.
  apply andb_true_iff in H as [Hc Hrest].
  destruct (IH Hrest) as [IH1 IH2].
  rewrite sub_around_cons, skip_around_cons.
  destruct (Ascii.eqb c p); destruct (Py.isspace c); simpl;
    rewrite ?replacement_plain, ?all_chars_cons, ?Hc, ?IH1, ?IH2;
    try destruct (whitespace_then p rest);
    rewrite ?all_chars_cons, ?Hc, ?IH1, ?IH2; auto.
Qed.

End SubAround.

Lemma strip_shape (s : string) :
  all_chars plain_char s = true ->
  has_adjacent Py.isspace s = false ->
  all_chars plain_char (Py.strip s) = true
  /\ has_adjacent Py.isspace (Py.strip s) = false
  /\ head_is Py.isspace (Py.strip s) = false
  /\ last_is Py.isspace (Py.strip s) = false.
Proof.
  intros Hall Hadj. unfold Py.strip.
  assert (Hl : all_chars plain_char (Py.lstrip Py.isspace s) = true).
  { clear Hadj. induction s as [|c s IH]; [reflexivity|].
    simpl. destruct (Py.isspace c).
    - apply IH. simpl in Hall. apply andb_true_iff in Hall. tauto.
    - exact Hall. }
  assert (Hr : forall t, all_chars plain_char t = true ->
                 all_chars plain_char (Py.rstrip Py.isspace t) = true).
  { induction t as [|c t IH]; [reflexivity|].
    rewrite all_chars_cons. intros H.
    apply andb_true_iff in H as [Hc Ht]. specialize (IH Ht).
    cbn [Py.rstrip]. destruct (Py.rstrip Py.isspace t).
    - destruct (Py.isspace c); [reflexivity|]. simpl. rewrite Hc. auto.
    - rewrite all_chars_cons, Hc, IH. auto. }
  destruct (lstrip_shape Py.isspace Py.isspace s) as (Hh & Ha & _).
  destruct (rstrip_shape Py.isspace Py.isspace (Py.lstrip Py.isspace s))
    as (Hlast & Hhead & Hadj' & _).
  auto.
Qed.

(** X17. The preprocessed text is in whitespace normal form: it neither
    starts nor ends with whitespace, every whitespace character in it is a
    plain space, and no two of them are adjacent. *)
Theorem preprocess_text_shape (text : string) :
  head_is Py.isspace (preprocess_text text) = false
  /\ last_is Py.isspace (preprocess_text text) = false
  /\ single_spaced (preprocess_text text) = true.
Proof.
  unfold preprocess_text.
  destruct (sub_whitespace_shape text) as [[A1 B1] _].
  destruct (space_after_punctuation_shape _ A1 B1) as [A2 B2].
  set (t2 := space_after_punctuation (sub_whitespace text)) in *.
  assert (A3 : all_chars plain_char (sub_around "(" " (" t2) = true).
  { apply (around_plain "(" " ("); [reflexivity|exact A2]. }
  assert (B3 : has_adjacent Py.isspace (sub_around "(" " (" t2) = false).
  { apply (around_adjacent "(" " (" true false); try reflexivity.
    exact B2. }
  set (t3 := sub_around "(" " (" t2) in *.
  assert (A4 : all_chars plain_char (sub_around ")" ") " t3) = true).
  { apply (around_plain ")" ") "); [reflexivity|exact A3]. }
  assert (B4 : has_adjacent Py.isspace (sub_around ")" ") " t3) = false).
  { apply (around_adjacent ")" ") " false true); try reflexivity.
    exact B3. }
  destruct (strip_shape _ A4 B4) as (A5 & B5 & H5 & L5).
  split; [exact H5|]. split; [exact L5|].
  unfold single_spaced. rewrite A5, B5. reflexivity.
Qed.

(** ** Blank rows *)

Lemma sub_whitespace_blank (s : string) :
  all_chars Py.isspace s = true ->
  skip_whitespace s = ""
  /\ (sub_whitespace s = "" \/ sub_whitespace s = " ").
Proof.
  induction s as [|c rest IH]; [auto|].
  rewrite all_chars_cons. intros H. apply andb_true_iff in H as [Hc Hrest].
  destruct (IH Hrest) as [IH1 _].
  rewrite sub_whitespace_cons, skip_whitespace_cons, Hc, IH1. auto.
Qed.

Lemma preprocess_text_blank (text : string) :
  all_chars Py.isspace text = true -> preprocess_text text = "".
Proof.
  intros H. unfold preprocess_text.
  destruct (sub_whitespace_blank text H) as [_ [-> | ->]]; reflexivity.
Qed.

Lemma run_csv_accepted
    (ner_pipeline : string -> result (list Entity.t))
    (rows : list CsvRow.t) :
  run_ner_process_csv ner_pipeline rows
  = final_output
      (aggregate_all ∅ (accepted_spans ner_pipeline (prepare_row <$> rows))).
Proof. apply run_ner_process_accepted. Qed.

(** X18. A blank row is never handed to the labeling model and adds
    nothing: when the ['Teks'] of a row is empty or all whitespace, its
    preprocessed text is empty, and the output of the run is the output
    without that row, whatever the model would have answered. *)
Theorem blank_row_is_absent
    (ner_pipeline : string -> result (list Entity.t))
    (before after : list CsvRow.t) (row : CsvRow.t) :
  all_chars Py.isspace (CsvRow.Teks row) = true ->
  preprocess_text (CsvRow.Teks row) = ""
  /\ run_ner_process_csv ner_pipeline (before ++ row :: after)
     = run_ner_process_csv ner_pipeline (before ++ after).
Proof.
  intros Hblank. pose proof (preprocess_text_blank _ Hblank) as Hpre.
  split; [exact Hpre|].
  rewrite !run_csv_accepted, !fmap_app, fmap_cons. f_equal. f_equal.
  rewrite !accepted_spans_app. f_equal.
  unfold accepted_spans at 1. cbn [flat_map].
  replace (accepted_of_row ner_pipeline (prepare_row row))
    with (@nil Sighting.t); [reflexivity|].
  unfold accepted_of_row, prepare_row. cbn [Row.text]. rewrite Hpre.
  reflexivity.
Qed.

Lemma blank_row_is_absent_witness :
  preprocess_text "   " = ""
  /\ run_ner_process_csv two_spellings_pipeline
       ([] ++ CsvRow.mk "   " "S0" :: [CsvRow.mk "Arya dan arya" " S1 "])
     = run_ner_process_csv two_spellings_pipeline
         ([] ++ [CsvRow.mk "Arya dan arya" " S1 "]).
Proof.
  apply (blank_row_is_absent two_spellings_pipeline []
           [CsvRow.mk "Arya dan arya" " S1 "] (CsvRow.mk "   " "S0")).
  reflexivity.
Defined.

(** ** A row that was already processed *)

Lemma foldl_qmax_absorb (m x : Q) : (x <= m)%Q -> qmax m x = m.
Proof.
  intros H. unfold qmax. apply Qltb_ge in H. rewrite H. reflexivity.
Qed.

Lemma merged_insert_seen (pre post : list Sighting.t) (x : Sighting.t) :
  x ∈ pre -> merged (pre ++ x :: post) = merged (pre ++ post).
Proof.
  intros Hx. destruct pre as [|first rest]; [inversion Hx|].
  change (Some (Data.mk (Sighting.label first)
                  (foldl qmax (Sighting.score first)
                     (Sighting.score <$> (rest ++ x :: post)%list))
                  (list_to_set (Sighting.story_title
                                  <$> ((first :: rest) ++ x :: post)%list)))
          = Some (Data.mk (Sighting.label first)
                    (foldl qmax (Sighting.score first)
                       (Sighting.score <$> (rest ++ post)%list))
                    (list_to_set (Sighting.story_title
                                    <$> ((first :: rest) ++ post)%list)))).
  f_equal. f_equal.
  - rewrite !fmap_app, fmap_cons, !foldl_app. cbn [foldl]. f_equal.
    apply foldl_qmax_absorb.
    apply elem_of_cons in Hx as [->|Hx].
    + apply foldl_qmax_ge_init.
    + apply foldl_qmax_ge, list_elem_of_fmap_2, Hx.
  - apply set_eq. intros y.
    rewrite !elem_of_list_to_set, !list_elem_of_fmap.
    split; intros (s & -> & Hs); exists s; (split; [reflexivity|]);
      revert Hs; rewrite !elem_of_app, (elem_of_cons post).
    + intros [H|[->|H]]; auto.
    + intros [H|H]; auto.
Qed.

Lemma merged_drop_seen (pre seen post : list Sighting.t) :
  (forall x, x ∈ seen -> x ∈ pre) ->
  merged (pre ++ seen ++ post) = merged (pre ++ post).
Proof.
  induction seen as [|x seen IH]; intros Hseen; [reflexivity|].
  cbn [app]. rewrite merged_insert_seen.
  - apply IH. intros y Hy. apply Hseen, list_elem_of_further, Hy.
  - apply Hseen, list_elem_of_here.
Qed.

Lemma accepted_spans_cons
    (ner_pipeline : string -> result (list Entity.t)) (row : Row.t)
    (rows : list Row.t) :
  accepted_spans ner_pipeline (row :: rows)
  = (accepted_of_row ner_pipeline row
     ++ accepted_spans ner_pipeline rows)%list.
Proof. reflexivity. Qed.

(** X19. A repeated row changes nothing: when a row occurs again later in
    the run (same text and title, same answer of the model), the later
    occurrence can be removed without changing the output. *)
Theorem repeated_row_adds_nothing
    (ner_pipeline : string -> result (list Entity.t))
    (before between after : list Row.t) (row : Row.t) :
  run_ner_process ner_pipeline
    (before ++ row :: between ++ row :: after)
  = run_ner_process ner_pipeline (before ++ row :: between ++ after).
Proof.
  rewrite !run_ner_process_accepted. f_equal. apply map_eq. intros k.
  rewrite !aggregate_all_lookup.
  rewrite !accepted_spans_app, !accepted_spans_cons, !accepted_spans_app,
    !accepted_spans_cons.
  unfold sightings_of. rewrite !filter_app.
  set (A := filter _ (accepted_spans ner_pipeline before)).
  set (R := filter _ (accepted_of_row ner_pipeline row)).
  set (B := filter _ (accepted_spans ner_pipeline between)).
  set (C := filter _ (accepted_spans ner_pipeline after)).
  replace (A ++ R ++ B ++ R ++ C)%list
    with ((A ++ R ++ B) ++ R ++ C)%list
    by (rewrite <- !app_assoc; reflexivity).
  replace (A ++ R ++ B ++ C)%list with ((A ++ R ++ B) ++ C)%list
    by (rewrite <- !app_assoc; reflexivity).
  apply merged_drop_seen. intros x Hx.
  apply elem_of_app. right. apply elem_of_app. left. exact Hx.
Qed.

(** ** The names handed to relationship extraction *)

Lemma StronglySorted_list_filter {A : Type} (R : A -> A -> Prop)
    (f : A -> bool) (l : list A) :
  StronglySorted R l -> StronglySorted R (List.filter f l).
Proof.
  induction 1 as [|x l Hl IH Hx]; simpl; [constructor|].
  destruct (f x); [|exact IH]. constructor; [exact IH|].
  rewrite List.Forall_forall in *. intros y Hy.
  apply List.filter_In in Hy as [Hy _]. auto.
Qed.

Lemma NoDup_fmap_eq {A B : Type} (f : A -> B) (l : list A) (x y : A) :
  NoDup (f <$> l) -> x ∈ l -> y ∈ l -> f x = f y -> x = y.
Proof.
  induction l as [|a l IH]; intros Hnd Hx Hy Hf; [inversion Hx|].
  rewrite fmap_cons in Hnd. apply NoDup_cons in Hnd as [Ha Hnd].
  apply elem_of_cons in Hx as [->|Hx]; apply elem_of_cons in Hy as [->|Hy].
  - reflexivity.
  - exfalso. apply Ha. rewrite Hf. apply list_elem_of_fmap_2, Hy.
  - exfalso. apply Ha. rewrite <- Hf. apply list_elem_of_fmap_2, Hx.
  - apply IH; assumption.
Qed.

Lemma load_valid_entities_elem (data : list Rec.t) (n : string) :
  n ∈ load_valid_entities data
  <-> exists r, r ∈ data /\ Rec.name r = n /\ (0.6 < Rec.confidence r)%Q.
Proof.
  unfold load_valid_entities. rewrite list_elem_of_fmap. split.
  - intros (r & -> & Hr). apply list_elem_of_In, List.filter_In in Hr
      as [Hr Hc].
    exists r. split; [apply list_elem_of_In, Hr|].
    split; [reflexivity|apply Qltb_lt, Hc].
  - intros (r & Hr & <- & Hc). exists r. split; [reflexivity|].
    apply list_elem_of_In, List.filter_In.
    split; [apply list_elem_of_In, Hr|apply Qltb_lt, Hc].
Qed.

(** X20. What relationship extraction receives from a run. The valid
    entity names are in strictly ascending order (so none is repeated), and
    a record of the table is among them exactly when its confidence is
    strictly above 0.6. A record whose confidence equals the threshold of
    the entity loop is therefore in the table but is not a valid entity. *)
Theorem valid_entities_of_run
    (ner_pipeline : string -> result (list Entity.t)) (rows : list Row.t) :
  StronglySorted str_lt
    (load_valid_entities (run_ner_process ner_pipeline rows))
  /\ (forall r,
         r ∈ run_ner_process ner_pipeline rows ->
         (Rec.name r
            ∈ load_valid_entities (run_ner_process ner_pipeline rows)
          <-> (0.6 < Rec.confidence r)%Q))
  /\ (forall r,
         r ∈ run_ner_process ner_pipeline rows ->
         (Rec.confidence r == CONFIDENCE_THRESHOLD)%Q ->
         Rec.name r
           ∉ load_valid_entities (run_ner_process ner_pipeline rows)).
Proof.
  assert (Hiff : forall r,
             r ∈ run_ner_process ner_pipeline rows ->
             (Rec.name r
                ∈ load_valid_entities (run_ner_process ner_pipeline rows)
              <-> (0.6 < Rec.confidence r)%Q)).
  { intros r Hr. rewrite load_valid_entities_elem. split.
    - intros (r' & Hr' & Hname & Hc).
      assert (r' = r) as ->; [|exact Hc].
      apply (NoDup_fmap_eq Rec.name (run_ner_process ner_pipeline rows));
        auto.
      apply final_output_NoDup.
    - intros Hc. exists r. auto. }
  split; [|split; [exact Hiff|]].
  - unfold load_valid_entities.
    apply (StronglySorted_fmap Rec.name name_lt str_lt); [auto|].
    apply StronglySorted_list_filter, final_output_strictly_sorted.
  - intros r Hr Hc Hin. apply (Hiff r Hr) in Hin.
    rewrite Hc in Hin. discriminate Hin.
Qed.

Lemma valid_entities_of_run_witness :
  Rec.mk "Arya" "Person" 0.9 ["S1"]
    ∈ run_ner_process two_spellings_pipeline two_spellings_rows
  /\ ("Arya"
        ∈ load_valid_entities
            (run_ner_process two_spellings_pipeline two_spellings_rows)
      <-> (0.6 < 0.9)%Q).
Proof.
  split; [exact two_spellings_member|].
  exact (proj1 (proj2 (valid_entities_of_run two_spellings_pipeline
                         two_spellings_rows))
           (Rec.mk "Arya" "Person" 0.9 ["S1"]) two_spellings_member).
Defined.

(** A span exactly at the threshold: in the table, not a valid entity. *)
Example threshold_record_not_valid :
  run_ner_process (fun _ => Ok [Entity.mk "PER" 0.60 0 4])
    [Row.mk "Arya pergi" "S1"]
  = [Rec.mk "Arya" "Person" 0.60 ["S1"]]
  /\ load_valid_entities [Rec.mk "Arya" "Person" 0.60 ["S1"]] = [].
Proof. split; vm_compute; reflexivity. Qed.

(** ** Perfect scores *)

Lemma gold_truth_snoc (gold : list Gold.t) (g : Gold.t) :
  gold_truth_of (gold ++ [g])
  = dict_set (Py.lower (Gold.name g)) g (gold_truth_of gold).
Proof. unfold gold_truth_of. rewrite foldl_snoc. reflexivity. Qed.

Lemma gold_truth_length_full (gold : list Gold.t) :
  length (gold_truth_of gold) = length gold ->
  NoDup ((fun g => Py.lower (Gold.name g)) <$> gold).
Proof.
  induction gold as [|g gold IH] using rev_ind; [constructor|].
  destruct (gold_truth_shape gold) as (_ & Hkeys & _ & Hlen).
  rewrite gold_truth_snoc, List.length_app.
  rewrite <- (length_fmap fst (dict_set _ _ _)), dict_set_keys.
  destruct (bool_decide _) eqn:Hk; rewrite ?List.length_app, length_fmap;
    simpl; intros Hfull; [lia|].
  apply bool_decide_eq_false in Hk.
  rewrite fmap_app. apply NoDup_app. split; [apply IH; lia|]. split.
  - intros x Hx [->|H]%elem_of_cons; [|inversion H].
    apply Hk, Hkeys, Hx.
  - apply NoDup_singleton.
Qed.

Lemma percentage_full (count denominator : Z) (p : Q) :
  0 < denominator ->
  (p == inject_Z count / inject_Z denominator * 100)%Q ->
  (p == 100)%Q <-> count = denominator.
Proof.
  intros Hden ->. destruct denominator as [|d|d]; try lia.
  unfold Qeq, Qdiv, Qmult, Qinv, inject_Z. simpl. lia.
Qed.

(** X21. When the scores are perfect. For a gold list that is not empty,
    recall is 100 exactly when no gold entry is counted as a false negative
    and no two gold names agree up to case; with two such names recall
    stays below 100 whatever the predictions. When at least one gold entry
    was found, strict precision is 100 exactly when there is no label
    error. *)
Theorem perfect_scores (json_results : list Rec.t) (gold : list Gold.t) :
  exists r,
    calculate_metrics json_results gold = Ok r
    /\ (0 < Report.gold_standard_size r ->
        ((Report.recall r == 100)%Q
         <-> Report.fn r = 0
             /\ NoDup ((fun g => Py.lower (Gold.name g)) <$> gold)))
    /\ (0 < Report.total_found_in_gold_set r ->
        ((Report.strict_precision r == 100)%Q
         <-> Report.strict_fp_label_error r = 0)).
Proof.
  destruct (calculate_metrics_fields json_results gold)
    as (r & Hr & Hsum & _ & Hle & _ & _).
  destruct (calculate_metrics_report json_results gold)
    as (r' & Hr' & Hsize & Htotal & Hstrict & Htp & Herr & _ & Hrecall
        & _ & Hsp & _).
  assert (r' = r) by congruence. subst r'.
  destruct (gold_truth_shape gold) as (_ & _ & _ & Hlen).
  exists r. split; [exact Hr|]. split.
  - intros Hpos. rewrite (percentage_full _ _ _ Hpos (Hrecall Hpos)).
    split.
    + intros Hfull. split; [lia|].
      apply gold_truth_length_full. lia.
    + intros [Hfn Hnodup].
      pose proof (gold_truth_length_distinct gold Hnodup). lia.
  - intros Hpos. rewrite (percentage_full _ _ _ Hpos (Hsp Hpos)). lia.
Qed.

Lemma perfect_scores_witness :
  exists r,
    calculate_metrics (scenario_predictions 0.9 0.8 [] []) scenario_gold
      = Ok r
    /\ ((Report.recall r == 100)%Q
        <-> Report.fn r = 0
            /\ NoDup ((fun g => Py.lower (Gold.name g)) <$> scenario_gold))
    /\ ((Report.strict_precision r == 100)%Q
        <-> Report.strict_fp_label_error r = 0).
Proof.
  destruct (perfect_scores (scenario_predictions 0.9 0.8 [] [])
              scenario_gold) as (r & Hr & Hrecall & Hsp).
  exists r. split; [exact Hr|].
  assert (Hfields : Report.gold_standard_size r = 2
                    /\ Report.total_found_in_gold_set r = 2).
  { vm_compute in Hr. injection Hr as <-. split; reflexivity. }
  destruct Hfields as [Hsize Htotal].
  split; [apply Hrecall|apply Hsp]; lia.
Defined.

(** ** Repairing a repaired span *)

(** X22. Repair is idempotent on offsets inside the text: when a span with
    [0 <= start <= end_ <= len(text)] is repaired to [w], repairing the
    span from [start] to [start + len(w)] returns [w] again. *)
Theorem expand_twice (text : string) (start end_ : Z) (w : string) :
  0 <= start <= end_ -> end_ <= Py.len text ->
  expand_to_full_word text start end_ = Ok w ->
  expand_to_full_word text start (start + Py.len w) = Ok w.
Proof.
  intros Hstart Hend Hw.
  destruct (Z.le_gt_cases (Py.len text) end_) as [Hat|Hin].
  - rewrite expand_at_text_end in Hw by exact Hat. injection Hw as <-.
    rewrite len_slice by lia.
    replace (start + Z.max 0 (end_ - start)) with end_ by lia.
    apply expand_at_text_end, Hat.
  - destruct (expand_inside_text text start end_)
      as (e & He & Hle & _ & Hstop); [lia|].
    rewrite He in Hw. injection Hw as <-.
    rewrite len_slice by lia.
    replace (start + Z.max 0 (e - start)) with e by lia.
    destruct Hstop as [->|(c & Hc & Halnum)].
    + apply expand_at_text_end. lia.
    + destruct (Z.le_gt_cases (Py.len text) e) as [Hat|Hin'].
      * apply expand_at_text_end, Hat.
      * destruct (expand_inside_text text start e)
          as (e' & He' & Hle' & Hall' & _); [lia|].
        destruct (Z.eq_dec e' e) as [->|Hne]; [exact He'|].
        destruct (Hall' e) as (c' & Hc' & Hc'alnum); [lia|]. congruence.
Qed.

Lemma expand_twice_witness :
  expand_to_full_word "Arya Basusara adalah" 0
    (0 + Py.len "Arya Basusara") = Ok "Arya Basusara".
Proof.
  apply (expand_twice "Arya Basusara adalah" 0 8 "Arya Basusara").
  - lia.
  - vm_compute. discriminate.
  - reflexivity.
Defined.

(** ** Titles of the data frame *)

(** X23. From the rows of the data frame to the story lists: every title
    in the story list of a record is the ['Judul'] of a row, stripped of
    surrounding whitespace, and that row's preprocessed text has at least 5
    characters. *)
Theorem csv_story_titles
    (ner_pipeline : string -> result (list Entity.t))
    (rows : list CsvRow.t) (r : Rec.t) (t : string) :
  r ∈ run_ner_process_csv ner_pipeline rows ->
  t ∈ Rec.stories r ->
  exists row,
    row ∈ rows
    /\ t = Py.strip (CsvRow.Judul row)
    /\ 5 <= Py.len (preprocess_text (CsvRow.Teks row))
    /\ head_is Py.isspace t = false
    /\ last_is Py.isspace t = false.
Proof.
  rewrite run_csv_accepted. intros Hr Ht.
  apply record_is_merge in Hr as (d & Hd & Hr).
  rewrite Hr in Ht. simpl in Ht.
  rewrite sorted_stories_elem, (merged_stories _ _ Hd) in Ht.
  apply elem_of_list_to_set, list_elem_of_fmap in Ht as (s & -> & Hs).
  apply sightings_of_elem in Hs as [Hs _].
  apply accepted_spans_source in Hs
    as (row' & results & entity & raw & Hrow & Hlen & _ & _ & _ & _ & ->).
  apply list_elem_of_fmap in Hrow as (row & -> & Hrow).
  exists row. simpl. split; [exact Hrow|]. split; [reflexivity|].
  split; [exact Hlen|]. unfold Py.strip.
  destruct (lstrip_shape Py.isspace Py.isspace (CsvRow.Judul row))
    as (Hhead & _).
  destruct (rstrip_shape Py.isspace Py.isspace
              (Py.lstrip Py.isspace (CsvRow.Judul row)))
    as (Hlast & Hkeep & _).
  auto.
Qed.

Lemma csv_story_titles_witness :
  exists row,
    row ∈ [CsvRow.mk " Arya   dan arya " " S1 "]
    /\ "S1" = Py.strip (CsvRow.Judul row)
    /\ 5 <= Py.len (preprocess_text (CsvRow.Teks row))
    /\ head_is Py.isspace "S1" = false
    /\ last_is Py.isspace "S1" = false.
Proof.
  apply (csv_story_titles two_spellings_pipeline
           [CsvRow.mk " Arya   dan arya " " S1 "]
           (Rec.mk "Arya" "Person" 0.9 ["S1"]) "S1").
  - replace (run_ner_process_csv two_spellings_pipeline
               [CsvRow.mk " Arya   dan arya " " S1 "])
      with [ Rec.mk "Arya" "Person" 0.9 ["S1"];
             Rec.mk "arya" "Person" 0.8 ["S1"] ]
      by (vm_compute; reflexivity).
    apply list_elem_of_here.
  - apply list_elem_of_here.
Defined.

(** ** Punctuation in the preprocessed text *)

Lemma has_pair_cons (p q : ascii -> bool) (c : ascii) (s : string) :
  has_pair p q (String c s) = (p c && head_is q s) || has_pair p q s.
Proof. reflexivity. Qed.

Lemma space_after_punctuation_pairs (s : string) :
  has_pair (Py.mem_char SENTENCE_PUNCTUATION) is_ascii_letter
    (space_after_punctuation s) = false.
Proof.
  induction s as [|c rest IH]; [reflexivity|].
  rewrite space_after_punctuation_cons.
  destruct (Py.mem_char SENTENCE_PUNCTUATION c && letter_ahead rest) eqn:Hp.
  - rewrite !has_pair_cons, IH. cbn [head_is].
    rewrite andb_false_r. reflexivity.
  - rewrite has_pair_cons, IH, space_after_punctuation_head.
    destruct rest as [|d rest']; simpl in *; rewrite ?andb_false_r; auto.
    rewrite Hp. reflexivity.
Qed.

Section SubAroundPairs.

Variables (p : ascii) (replacement : string) (P L : ascii -> bool).
Hypothesis replacement_pairs :
  forall x, has_pair P L (replacement ++ x)%string = has_pair P L x.
Hypothesis replacement_no_letter :
  forall x, head_is L (replacement ++ x)%string = false.

Lemma around_head_letter (s : string) :
  head_is L (sub_around p replacement s) = true -> head_is L s = true.
Proof.
  induction s as [|c rest IH]; [auto|].
  rewrite sub_around_cons.
  destruct (Ascii.eqb c p); [rewrite replacement_no_letter; discriminate|].
  destruct (Py.isspace c && whitespace_then p rest) eqn:Hdrop; [|auto].
  apply andb_true_iff in Hdrop as [_ Hw]. intros Hhead. exfalso.
  clear IH. revert Hw Hhead. clear c.
  induction rest as [|d rest IH]; [discriminate|].
  rewrite whitespace_then_cons, sub_around_cons.
  destruct (Ascii.eqb d p); [rewrite replacement_no_letter; discriminate|].
  destruct (Py.isspace d); [|discriminate]. cbn [andb]. intros Hw.
  rewrite Hw. apply IH, Hw.
Qed.

Lemma around_pairs (s : string) :
  has_pair P L s = false ->
  has_pair P L (sub_around p replacement s) = false
  /\ has_pair P L (skip_around p replacement s) = false.
Proof.
  induction s as [|c rest IH]; [auto|].
  rewrite has_pair_cons. intros H.
  apply orb_false_elim in H as [Hc Hrest].
  destruct (IH Hrest) as [IH1 IH2].
  assert (Hemit : has_pair P L (String c (sub_around p replacement rest))
                  = false).
  { rewrite has_pair_cons, IH1, orb_false_r.
    destruct (P c); [|reflexivity]. cbn [andb] in *.
    destruct (head_is L (sub_around p replacement rest)) eqn:Hh;
      [|reflexivity].
    rewrite (around_head_letter rest Hh) in Hc. discriminate. }
  rewrite sub_around_cons, skip_around_cons.
  destruct (Ascii.eqb c p); destruct (Py.isspace c); cbn [andb];
    rewrite ?replacement_pairs; try destruct (whitespace_then p rest);
    auto.
Qed.

End SubAroundPairs.

Lemma lstrip_pairs (p P L : ascii -> bool) (s : string) :
  has_pair P L s = false -> has_pair P L (Py.lstrip p s) = false.
Proof.
  induction s as [|c s IH]; [auto|].
  simpl. destruct (p c); [|auto].
  intros H. apply orb_false_elim in H as [_ H]. apply IH, H.
Qed.

Lemma rstrip_pairs (p P L : ascii -> bool) (s : string) :
  has_pair P L s = false -> has_pair P L (Py.rstrip p s) = false.
Proof.
  induction s as [|c s IH]; [auto|].
  rewrite has_pair_cons. intros H.
  apply orb_false_elim in H as [Hc Hs].
  destruct (rstrip_shape p L s) as (_ & Hhead & _).
  cbn [Py.rstrip]. destruct (Py.rstrip p s) as [|c' r] eqn:Hr.
  - destruct (p c); simpl; rewrite ?andb_false_r; reflexivity.
  - rewrite has_pair_cons, (IH Hs), orb_false_r.
    destruct (P c); [|reflexivity]. cbn [andb] in *. apply Hhead, Hc.
Qed.

(** X24. In the preprocessed text a mark of [. , ! ? ; :] is never
    directly followed by an ASCII letter: the space that the second
    substitution inserts survives the later ones. *)
Theorem preprocess_text_punctuation (text : string) :
  has_pair (Py.mem_char SENTENCE_PUNCTUATION) is_ascii_letter
    (preprocess_text text) = false.
Proof.
  unfold preprocess_text, Py.strip.
  apply rstrip_pairs, lstrip_pairs.
  apply (around_pairs ")" ") " _ _); [reflexivity|reflexivity|].
  apply (around_pairs "(" " (" _ _); [reflexivity|reflexivity|].
  apply space_after_punctuation_pairs.
Qed.

(** ** Case of names and labels in the predictions *)

Lemma predictions_related (l l' : list Rec.t) (m m' : gmap string Rec.t) :
  Forall2 same_up_to_case l l' ->
  (forall k,
     option_Forall2
       (fun a b => Py.lower (Rec.label a) = Py.lower (Rec.label b))
       (m !! k) (m' !! k)) ->
  forall k,
    option_Forall2
      (fun a b => Py.lower (Rec.label a) = Py.lower (Rec.label b))
      (foldl (fun d item => <[Py.lower (Rec.name item) := item]> d) m l !! k)
      (foldl (fun d item => <[Py.lower (Rec.name item) := item]> d) m' l'
         !! k).
Proof.
  intros Hl. revert m m'.
  induction Hl as [|a b l l' [Hname Hlabel] Hl IH]; intros m m' Hm k;
    [apply Hm|].
  simpl. apply IH. intros k'. rewrite <- Hname.
  destruct (decide (Py.lower (Rec.name a) = k')) as [->|Hne].
  - rewrite !lookup_insert_eq. constructor. exact Hlabel.
  - rewrite !lookup_insert_ne by exact Hne. apply Hm.
Qed.

Lemma count_item_related (mp mp' : gmap string Rec.t) (c c' : Counts.t)
    (kv : string * Gold.t) :
  option_Forall2
    (fun a b => Py.lower (Rec.label a) = Py.lower (Rec.label b))
    (mp !! kv.1) (mp' !! kv.1) ->
  counts_agree c c' ->
  counts_agree (count_item mp c kv) (count_item mp' c' kv)
  /\ is_label_error mp kv = is_label_error mp' kv.
Proof.
  destruct kv as [k g]. unfold count_item, is_label_error, counts_agree.
  simpl. intros Hrel (H1 & H2 & H3 & H4 & H5 & H6).
  destruct Hrel as [a b Hlabel|]; [|simpl; auto 10 with congruence].
  rewrite Hlabel. destruct (String.eqb _ _); simpl.
  - auto 10 with congruence.
  - rewrite !fmap_app, H5, H6. simpl. auto 10 with congruence.
Qed.

Lemma foldl_count_item_related (mp mp' : gmap string Rec.t)
    (gt : list (string * Gold.t)) (c c' : Counts.t) :
  (forall k,
     option_Forall2
       (fun a b => Py.lower (Rec.label a) = Py.lower (Rec.label b))
       (mp !! k) (mp' !! k)) ->
  counts_agree c c' ->
  counts_agree (foldl (count_item mp) c gt) (foldl (count_item mp') c' gt)
  /\ label_mismatch_list_of mp gt = label_mismatch_list_of mp' gt.
Proof.
  intros Hrel. revert c c'.
  induction gt as [|kv gt IH]; intros c c' Hc; [auto|].
  destruct (count_item_related mp mp' c c' kv (Hrel kv.1) Hc) as [Hstep Herr].
  destruct (IH _ _ Hstep) as [IH1 IH2].
  split; [exact IH1|].
  unfold label_mismatch_list_of in *. cbn [List.filter].
  rewrite Herr. destruct (is_label_error mp' kv); [|exact IH2].
  rewrite !fmap_cons, IH2. reflexivity.
Qed.

(** X25. The harness does not look at the case of the predictions: two
    prediction lists that differ, entry by entry, at most in the case of
    names and labels give the same counters, the same three percentages,
    the same key list of label errors and [[MISMATCH]] lines for the same
    gold entries. *)
Theorem harness_ignores_case (json_results json_results' : list Rec.t)
    (gold : list Gold.t) :
  Forall2 same_up_to_case json_results json_results' ->
  exists r r',
    calculate_metrics json_results gold = Ok r
    /\ calculate_metrics json_results' gold = Ok r'
    /\ Report.tp r = Report.tp r'
    /\ Report.fn r = Report.fn r'
    /\ Report.strict_fp_label_error r = Report.strict_fp_label_error r'
    /\ Report.recall r = Report.recall r'
    /\ Report.strict_precision r = Report.strict_precision r'
    /\ Report.f1 r = Report.f1 r'
    /\ Report.label_mismatch_list r = Report.label_mismatch_list r'
    /\ Mismatch.name <$> Report.mismatches r
       = Mismatch.name <$> Report.mismatches r'
    /\ Mismatch.gold_label <$> Report.mismatches r
       = Mismatch.gold_label <$> Report.mismatches r'.
Proof.
  intros Hsame.
  assert (Hrel : forall k,
             option_Forall2
               (fun a b => Py.lower (Rec.label a) = Py.lower (Rec.label b))
               (model_predictions_of json_results !! k)
               (model_predictions_of json_results' !! k)).
  { apply predictions_related; [exact Hsame|].
    intros k. rewrite lookup_empty. constructor. }
  destruct (foldl_count_item_related _ _ (gold_truth_of gold)
              (Counts.mk 0 0 0 0 []) (Counts.mk 0 0 0 0 []) Hrel)
    as [(H1 & H2 & H3 & H4 & H5 & H6) Hlist].
  { unfold counts_agree. auto 10. }
  unfold calculate_metrics.
  set (c := foldl (count_item (model_predictions_of json_results)) _ _) in *.
  set (c' := foldl (count_item (model_predictions_of json_results')) _ _)
    in *.
  rewrite <- H1, <- H3, <- H4, <- Hlist.
  destruct (percentage_ok (Counts.tp c) (Z.of_nat (length gold)))
    as (recall & -> & _).
  destruct (percentage_ok (Counts.strict_tp c)
              (Counts.strict_tp c + Counts.strict_fp_label_error c))
    as (sp & Hsp_eq & _).
  cbn [bind]. rewrite Hsp_eq. cbn [bind].
  destruct (f1_ok sp recall) as (f1 & -> & _).
  cbn [bind]. eexists. eexists. split; [reflexivity|].
  split; [reflexivity|]. cbn. auto 12.
Qed.

Lemma harness_ignores_case_witness :
  exists r r',
    calculate_metrics [Rec.mk "Medang Kamulan" "PERSON" 0.9 []] scenario_gold
      = Ok r
    /\ calculate_metrics [Rec.mk "medang kamulan" "person" 0.9 []]
         scenario_gold = Ok r'
    /\ Report.tp r = Report.tp r'
    /\ Report.fn r = Report.fn r'
    /\ Report.strict_fp_label_error r = Report.strict_fp_label_error r'
    /\ Report.recall r = Report.recall r'
    /\ Report.strict_precision r = Report.strict_precision r'
    /\ Report.f1 r = Report.f1 r'
    /\ Report.label_mismatch_list r = Report.label_mismatch_list r'
    /\ Mismatch.name <$> Report.mismatches r
       = Mismatch.name <$> Report.mismatches r'
    /\ Mismatch.gold_label <$> Report.mismatches r
       = Mismatch.gold_label <$> Report.mismatches r'.
Proof.
  apply (harness_ignores_case [Rec.mk "Medang Kamulan" "PERSON" 0.9 []]
           [Rec.mk "medang kamulan" "person" 0.9 []] scenario_gold).
  constructor; [|constructor]. split; reflexivity.
Defined.
